(** * data-gov-in-mcp: the request pipeline of [data_gov_in]

    A shallow embedding of [src/data_gov_in/cache.py] ([CacheEntry], [Cache])
    and [src/data_gov_in/api_client.py] ([RateLimiter], [DataGovInClient]),
    with the properties of the rate limiter, the TTL/LRU cache and the
    retrying dispatcher stated and settled against it.

    Conventions of the embedding.
    - Python [int] is [Z].  A Python [float] that the code computes with
      (the retry delays, the hit rate) is a [pyfloat]: an IEEE 754 binary64,
      its operations rounded to nearest, ties to even, with their
      infinities; [x ** n] is the [pow] of the C library and is left open.
      The readings of the clock, and with them the expiry times of the cache
      and the waits of the rate limiter, are exact rationals [Q].
    - Python [str] is [string], one character per code point below 256.
    - A [dict] is an association list in insertion order whose names are
      pairwise distinct; an [OrderedDict] likewise, head = oldest.
    - An exception is a value of [exn]; a call that can raise returns a
      [result].
    - [time.time()] reads the [clock] of the [World]; [time.sleep(d)]
      advances it by [d], and raises on a negative, infinite or NaN [d].
      Of the largest length [time.sleep] takes (the time type holds some
      9.2e9 seconds) the embedding keeps [sleep_limit]: the properties that
      need a sleep to go through ask for a length within it.
    - The HTTP transport is an oracle indexed by the number of requests
      issued so far. *)

From Stdlib Require Import ZArith QArith Qpower Qabs List String Ascii Bool Lia Lqa.
From Stdlib Require Import Permutation Sorted DecimalString.
Import ListNotations.

Set Warnings "-register-all".

Local Open Scope string_scope.
Local Open Scope Z_scope.

(** ** Python values *)

(** The values that reach [json.dumps] in this program: request parameters
    ([offset], [limit], [api-key], [format], the [filters] mapping) and
    decoded response bodies. *)
Inductive pyval : Type :=
| PNone
| PBool (b : bool)
| PInt (z : Z)
| PStr (s : string)
| PList (l : list pyval)
| PDict (d : list (string * pyval)).

(** [Dict[str, Any]], in insertion order. *)
Definition dict : Type := list (string * pyval).

Definition keys {V : Type} (d : list (string * V)) : list string := map fst d.

(** [k in d] *)
Fixpoint contains {V : Type} (d : list (string * V)) (k : string) : bool :=
  match d with
  | [] => false
  | (k', _) :: d' => if String.eqb k' k then true else contains d' k
  end.

(** [d[k]], [None] standing for [KeyError] *)
Fixpoint lookup {V : Type} (d : list (string * V)) (k : string) : option V :=
  match d with
  | [] => None
  | (k', v) :: d' => if String.eqb k' k then Some v else lookup d' k
  end.

(** [del d[k]] *)
Fixpoint remove_key {V : Type} (d : list (string * V)) (k : string)
  : list (string * V) :=
  match d with
  | [] => []
  | (k', v) :: d' =>
      if String.eqb k' k then remove_key d' k else (k', v) :: remove_key d' k
  end.

(** [d[k] = v] on a plain [dict]: an existing name keeps its position, a new
    one goes last. *)
Fixpoint setitem {V : Type} (d : list (string * V)) (k : string) (v : V)
  : list (string * V) :=
  match d with
  | [] => [(k, v)]
  | (k', v') :: d' =>
      if String.eqb k' k then (k', v) :: d' else (k', v') :: setitem d' k v
  end.

(** [d.setdefault(k, v)] *)
Definition setdefault {V : Type} (d : list (string * V)) (k : string) (v : V)
  : list (string * V) :=
  if contains d k then d else setitem d k v.

(** ** [sorted] on the items of a mapping

    [sorted(kwargs.items())] orders the [(name, value)] tuples; the names of
    a [dict] are pairwise distinct, so the tuple comparison is decided by the
    names, compared code point by code point. *)
Section Sorted_items.
Context {V : Type}.

Fixpoint insert_item (x : string * V) (l : list (string * V))
  : list (string * V) :=
  match l with
  | [] => [x]
  | y :: l' =>
      if String.ltb (fst x) (fst y) then x :: y :: l'
      else y :: insert_item x l'
  end.

Definition sorted_items (l : list (string * V)) : list (string * V) :=
  fold_right insert_item [] l.

(** the order [sorted] puts the items in *)
Definition lt_item (x y : string * V) : Prop :=
  String.ltb (fst x) (fst y) = true.
End Sorted_items.

(** ** [json.dumps(..., sort_keys=True)] *)
Module Json.

Definition hex_digit (n : Z) : ascii :=
  if n <? 10 then ascii_of_nat (Z.to_nat (48 + n))
  else ascii_of_nat (Z.to_nat (87 + n)).

(** [ESCAPE_ASCII]: the backslash, the double quote and everything outside
    [' '..'~'] is escaped, the latter as [\u00xx] unless it has a short
    form. *)
Definition escape_char (c : ascii) : string :=
  let n := Z.of_nat (nat_of_ascii c) in
  if n =? 34 then "\" ++ String c ""
  else if n =? 92 then "\\"
  else if n =? 8 then "\b"
  else if n =? 12 then "\f"
  else if n =? 10 then "\n"
  else if n =? 13 then "\r"
  else if n =? 9 then "\t"
  else if (32 <=? n) && (n <=? 126) then String c ""
  else "\u00" ++ String (hex_digit (n / 16)) (String (hex_digit (n mod 16)) "").

Fixpoint escape (s : string) : string :=
  match s with
  | EmptyString => ""
  | String c s' => escape_char c ++ escape s'
  end.

Definition quote (s : string) : string :=
  String (ascii_of_nat 34) (escape s) ++ String (ascii_of_nat 34) "".

Definition of_int (z : Z) : string := NilZero.string_of_int (Z.to_int z).

(** items joined by [", "] *)
Fixpoint join (l : list string) : string :=
  match l with
  | [] => ""
  | [s] => s
  | s :: l' => s ++ ", " ++ join l'
  end.

Fixpoint dumps (v : pyval) : string :=
  match v with
  | PNone => "null"
  | PBool true => "true"
  | PBool false => "false"
  | PInt z => of_int z
  | PStr s => quote s
  | PList l => "[" ++ join (map dumps l) ++ "]"
  | PDict d =>
      "{" ++ join (map (fun kv => quote (fst kv) ++ ": " ++ snd kv)
                     (sorted_items
                        (map (fun '(k, x) => (k, dumps x)) d)))
          ++ "}"
  end.

End Json.

(** ** [hashlib.sha256] (FIPS 180-4), on bytes held as [Z] *)
Module SHA256.

Definition mask32 : Z := 0xffffffff.
Definition wrap (x : Z) : Z := Z.land x mask32.
Definition add32 (x y : Z) : Z := wrap (x + y).
Definition rotr (n x : Z) : Z :=
  Z.lor (Z.shiftr x n) (wrap (Z.shiftl x (32 - n))).

Definition ch (x y z : Z) : Z :=
  Z.lxor (Z.land x y) (Z.land (Z.lxor x mask32) z).
Definition maj (x y z : Z) : Z :=
  Z.lxor (Z.lxor (Z.land x y) (Z.land x z)) (Z.land y z).
Definition bsig0 (x : Z) : Z :=
  Z.lxor (Z.lxor (rotr 2 x) (rotr 13 x)) (rotr 22 x).
Definition bsig1 (x : Z) : Z :=
  Z.lxor (Z.lxor (rotr 6 x) (rotr 11 x)) (rotr 25 x).
Definition ssig0 (x : Z) : Z :=
  Z.lxor (Z.lxor (rotr 7 x) (rotr 18 x)) (Z.shiftr x 3).
Definition ssig1 (x : Z) : Z :=
  Z.lxor (Z.lxor (rotr 17 x) (rotr 19 x)) (Z.shiftr x 10).

(** the first 64 primes *)
Definition primes : list Z :=
  [ 2; 3; 5; 7; 11; 13; 17; 19; 23; 29; 31; 37; 41; 43; 47; 53;
    59; 61; 67; 71; 73; 79; 83; 89; 97; 101; 103; 107; 109; 113; 127; 131;
    137; 139; 149; 151; 157; 163; 167; 173; 179; 181; 191; 193; 197; 199;
    211; 223; 227; 229; 233; 239; 241; 251; 257; 263; 269; 271; 277; 281;
    283; 293; 307; 311 ].

(** the integer cube root, found bit by bit from [2 ^ bits] down *)
Fixpoint cube_root (bits : nat) (r n : Z) : Z :=
  match bits with
  | O => r
  | S bits' =>
      let r' := r + 2 ^ Z.of_nat bits' in
      cube_root bits' (if r' * r' * r' <=? n then r' else r) n
  end.

(** the round constants: the first 32 bits of the fractional parts of the
    cube roots of the primes *)
Definition K : list Z :=
  Eval vm_compute in map (fun p => wrap (cube_root 36 0 (p * 2 ^ 96))) primes.

(** the initial hash value: the same of the square roots of the first eight
    primes *)
Definition H0 : list Z :=
  Eval vm_compute in map (fun p => wrap (Z.sqrt (p * 2 ^ 64))) (firstn 8 primes).

(** big-endian bytes of [x], [n] of them *)
Fixpoint be_bytes (n : nat) (x : Z) : list Z :=
  match n with
  | O => []
  | S n' => Z.land (Z.shiftr x (8 * Z.of_nat n')) 0xff :: be_bytes n' x
  end.

(** the message, [0x80], zeros up to 56 mod 64, the bit length on 8 bytes *)
Definition pad (msg : list Z) : list Z :=
  let len := Z.of_nat (List.length msg) in
  (msg ++ [0x80] ++ repeat 0 (Z.to_nat ((55 - len) mod 64))
       ++ be_bytes 8 (8 * len))%list.

Fixpoint words (fuel : nat) (bs : list Z) : list Z :=
  match fuel, bs with
  | S fuel', b0 :: b1 :: b2 :: b3 :: bs' =>
      (Z.shiftl b0 24 + Z.shiftl b1 16 + Z.shiftl b2 8 + b3) :: words fuel' bs'
  | _, _ => []
  end.

Fixpoint blocks (fuel : nat) (ws : list Z) : list (list Z) :=
  match fuel, ws with
  | S fuel', _ :: _ => firstn 16 ws :: blocks fuel' (skipn 16 ws)
  | _, _ => []
  end.

(** the message schedule, extended from 16 to 64 words *)
Fixpoint schedule (n : nat) (ws : list Z) : list Z :=
  match n with
  | O => ws
  | S n' =>
      let t := List.length ws in
      let at_ i := nth (t - i) ws 0 in
      schedule n'
        (ws ++ [add32 (add32 (ssig1 (at_ 2%nat)) (at_ 7%nat))
                      (add32 (ssig0 (at_ 15%nat)) (at_ 16%nat))])%list
  end.

Definition round (st : list Z) (kw : Z * Z) : list Z :=
  match st with
  | [a; b; c; d; e; f; g; h] =>
      let t1 := add32 (add32 (add32 h (bsig1 e)) (add32 (ch e f g) (fst kw)))
                      (snd kw) in
      let t2 := add32 (bsig0 a) (maj a b c) in
      [add32 t1 t2; a; b; c; add32 d t1; e; f; g]
  | _ => st
  end.

Definition compress (h : list Z) (block : list Z) : list Z :=
  let st := fold_left round (combine K (schedule 48 block)) h in
  map (fun p => add32 (fst p) (snd p)) (combine h st).

Definition digest (msg : list Z) : list Z :=
  let bs := pad msg in
  let ws := words (List.length bs) bs in
  fold_left compress (blocks (List.length ws) ws) H0.

Fixpoint hex (n : nat) (x : Z) : string :=
  match n with
  | O => ""
  | S n' =>
      String (Json.hex_digit (Z.land (Z.shiftr x (4 * Z.of_nat n')) 0xf))
             (hex n' x)
  end.

(** [s.encode()]: the serialised key is pure ASCII *)
Definition encode (s : string) : list Z :=
  map (fun c => Z.of_nat (nat_of_ascii c)) (list_ascii_of_string s).

(** [hashlib.sha256(b).hexdigest()] *)
Definition hexdigest (msg : list Z) : string :=
  fold_right (fun x acc => hex 8 x ++ acc) "" (digest msg).

End SHA256.

(** ** Exceptions ([exceptions.py] and the built-in ones the code can raise) *)
Inductive exn : Type :=
| APIKeyMissingError
| RateLimitError
| ResourceNotFoundError (resource_id : string)
| InvalidParameterError (param message : string)
| APIError (status_code : Z) (message : string)
| NetworkError (message : string)
| KeyError (message : string)
| IndexError (message : string)
| ValueError (message : string)
| OverflowError (message : string)
| ZeroDivisionError (message : string)
| HttpxTimeoutException (message : string)   (** [httpx.TimeoutException] *)
| HttpxNetworkError (message : string)       (** [httpx.NetworkError] *)
| PyException (message : string).            (** any other [Exception] *)

(** [str(e)] *)
Definition str (e : exn) : string :=
  match e with
  | APIKeyMissingError =>
      "API key is required. Set DATA_GOV_IN_API_KEY environment variable."
  | RateLimitError => "Rate limit exceeded. Please try again later."
  | ResourceNotFoundError r => "Resource '" ++ r ++ "' not found"
  | InvalidParameterError p m => "Invalid parameter '" ++ p ++ "': " ++ m
  | APIError c m => "API Error (" ++ Json.of_int c ++ "): " ++ m
  | NetworkError m | KeyError m | IndexError m | ValueError m
  | OverflowError m | ZeroDivisionError m
  | HttpxTimeoutException m | HttpxNetworkError m | PyException m => m
  end.

Inductive result (A : Type) : Type :=
| Ok (a : A)
| Raise (e : exn).
Arguments Ok {A} a.
Arguments Raise {A} e.

(** [x > y] on timestamps *)
Definition Qgtb (x y : Q) : bool := negb (Qle_bool x y).

(** ** Python floats

    A [float] is an IEEE 754 binary64: a finite one is held as the rational
    it is, the results of the operations are rounded to the nearest binary64,
    ties to even.  The sign of zero is not kept. *)
Inductive pyfloat : Type :=
| Finite (q : Q)
| Infinity (negative : bool)
| NaN.

(** [n / d] rounded to the nearest integer, ties to even ([d] positive) *)
Definition round_half_even (n d : Z) : Z :=
  let q := n / d in
  let r := n mod d in
  if 2 * r <? d then q
  else if d <? 2 * r then q + 1
  else if Z.even q then q else q + 1.

(** does [2 ^ e * d <= n] hold? *)
Definition pow2_le (e d n : Z) : bool :=
  if 0 <=? e then d * 2 ^ e <=? n else d <=? n * 2 ^ (- e).

(** [floor (log2 (n / d))], for positive [n] and [d] *)
Definition log2_ratio (n d : Z) : Z :=
  let e := Z.log2 n - Z.log2 d in
  if pow2_le e d n then e else e - 1.

(** the binary64 nearest to [q]: 53 significant bits, exponents from -1022
    (below, the spacing stays [2 ^ -1074]) to 1023 (above, an infinity) *)
Definition round64 (q : Q) : pyfloat :=
  let n := Z.abs (Qnum q) in
  let d := Zpos (Qden q) in
  if n =? 0 then Finite 0
  else
    let ex := Z.max (log2_ratio n d) (-1022) - 52 in
    let m := if 0 <=? ex then round_half_even n (d * 2 ^ ex)
             else round_half_even (n * 2 ^ (- ex)) d in
    if (971 <? ex) || ((ex =? 971) && (2 ^ 53 <=? m))
    then Infinity (Qnum q <? 0)
    else Finite (Qred (inject_Z (Z.sgn (Qnum q) * m) * 2 ^ ex)%Q).

Definition float_sign (x : pyfloat) : Z :=
  match x with
  | Finite q => Z.sgn (Qnum q)
  | Infinity true => -1
  | Infinity false => 1
  | NaN => 0
  end.

(** [x * y] *)
Definition fmul (x y : pyfloat) : pyfloat :=
  match x, y with
  | Finite a, Finite b => round64 (a * b)
  | NaN, _ | _, NaN => NaN
  | _, _ =>
      if float_sign x * float_sign y =? 0 then NaN
      else Infinity (float_sign x * float_sign y <? 0)
  end.

(** [a / b] on integers: the quotient, correctly rounded *)
Definition int_truediv (a b : Z) : result pyfloat :=
  if b =? 0 then Raise (ZeroDivisionError "division by zero")
  else
    match round64 (inject_Z a / inject_Z b) with
    | Infinity _ =>
        Raise (OverflowError "integer division result too large for a float")
    | x => Ok x
    end.

(** [f"{x:.2f}"]: two decimals, the exact value rounded half to even *)
Definition two_digits (n : Z) : string :=
  (if n <? 10 then "0" else "") ++ Json.of_int n.

Definition format_2f_finite (x : Q) : string :=
  let c := round_half_even (100 * Z.abs (Qnum x)) (Zpos (Qden x)) in
  (if Qnum x <? 0 then "-" else "")
    ++ Json.of_int (c / 100) ++ "." ++ two_digits (c mod 100).

Definition format_2f (x : pyfloat) : string :=
  match x with
  | Finite q => format_2f_finite q
  | Infinity true => "-inf"
  | Infinity false => "inf"
  | NaN => "nan"
  end.

(** ** [cache.py] *)

(** [Cache._make_key]: [args] is the tuple of positional arguments, [kwargs]
    the keyword arguments *)
Definition key_dict (args : list pyval) (kwargs : dict) : pyval :=
  PDict [ ("args", PList args);
          ("kwargs", PList (map (fun '(k, v) => PList [PStr k; v])
                                (sorted_items kwargs))) ].

Definition key_str (args : list pyval) (kwargs : dict) : string :=
  Json.dumps (key_dict args kwargs).

Definition _make_key (args : list pyval) (kwargs : dict) : string :=
  SHA256.hexdigest (SHA256.encode (key_str args kwargs)).

Section Cache.
Context {V : Type}.

(** [CacheEntry]: [expiry] is [time.time() + ttl] at construction *)
Record CacheEntry : Type := mkCacheEntry { value : V; expiry : Q }.

Definition CacheEntry_init (v : V) (ttl : Z) (now : Q) : CacheEntry :=
  {| value := v; expiry := (now + inject_Z ttl)%Q |}.

(** [time.time() > self.expiry] *)
Definition is_expired (e : CacheEntry) (now : Q) : bool :=
  Qgtb now (expiry e).

Record Cache : Type := mkCache {
  max_size : Z;
  default_ttl : Z;
  _cache : list (string * CacheEntry);
  _hits : Z;
  _misses : Z
}.

Definition Cache_init (max_size default_ttl : Z) : Cache :=
  {| max_size := max_size; default_ttl := default_ttl;
     _cache := []; _hits := 0; _misses := 0 |}.

Definition with_cache (c : Cache) (d : list (string * CacheEntry)) : Cache :=
  {| max_size := max_size c; default_ttl := default_ttl c;
     _cache := d; _hits := _hits c; _misses := _misses c |}.

Definition count_hit (c : Cache) : Cache :=
  {| max_size := max_size c; default_ttl := default_ttl c;
     _cache := _cache c; _hits := _hits c + 1; _misses := _misses c |}.

Definition count_miss (c : Cache) : Cache :=
  {| max_size := max_size c; default_ttl := default_ttl c;
     _cache := _cache c; _hits := _hits c; _misses := _misses c + 1 |}.

(** [OrderedDict.move_to_end(key)] *)
Definition move_to_end (d : list (string * CacheEntry)) (k : string)
  : list (string * CacheEntry) :=
  match lookup d k with
  | Some e => (remove_key d k ++ [(k, e)])%list
  | None => d
  end.

(** [Cache.get(key)], read at time [now]; [None] is Python's [None] *)
Definition get (c : Cache) (key : string) (now : Q) : Cache * option V :=
  match lookup (_cache c) key with
  | Some entry =>
      if is_expired entry now then
        (count_miss (with_cache c (remove_key (_cache c) key)), None)
      else
        (count_hit (with_cache c (move_to_end (_cache c) key)),
         Some (value entry))
  | None => (count_miss c, None)
  end.

(** [ttl or self.default_ttl] *)
Definition ttl_or_default (ttl : option Z) (default : Z) : Z :=
  match ttl with
  | Some t => if t =? 0 then default else t
  | None => default
  end.

(** [Cache.set(key, value, ttl)], written at time [now].  [popitem] on an
    empty [OrderedDict] raises [KeyError] before anything is changed. *)
Definition set (c : Cache) (key : string) (v : V) (ttl : option Z) (now : Q)
  : result Cache :=
  let entry := CacheEntry_init v (ttl_or_default ttl (default_ttl c)) now in
  if contains (_cache c) key then
    Ok (with_cache c (remove_key (_cache c) key ++ [(key, entry)])%list)
  else if Z.of_nat (List.length (_cache c)) >=? max_size c then
    match _cache c with
    | [] => Raise (KeyError "'dictionary is empty'")
    | _ :: rest => Ok (with_cache c (rest ++ [(key, entry)])%list)
    end
  else Ok (with_cache c (_cache c ++ [(key, entry)])%list).

(** [Cache.clear()] *)
Definition clear (c : Cache) : Cache :=
  {| max_size := max_size c; default_ttl := default_ttl c;
     _cache := []; _hits := 0; _misses := 0 |}.

(** the local [hit_rate] of [Cache.stats]:
    [(self._hits / total * 100) if total > 0 else 0] *)
Definition hit_rate (c : Cache) : result pyfloat :=
  let total := _hits c + _misses c in
  if total >? 0 then
    match int_truediv (_hits c) total with
    | Ok ratio => Ok (fmul ratio (Finite 100))
    | Raise e => Raise e
    end
  else Ok (Finite 0).

(** [Cache.stats()] *)
Definition stats (c : Cache) : result dict :=
  match hit_rate c with
  | Raise e => Raise e
  | Ok rate =>
      Ok [ ("size", PInt (Z.of_nat (List.length (_cache c))));
           ("max_size", PInt (max_size c));
           ("hits", PInt (_hits c));
           ("misses", PInt (_misses c));
           ("hit_rate", PStr (format_2f rate ++ "%")) ]
  end.

End Cache.

(** *** The history of a cache

    Used to state that the order of the entries is the order of their last
    access: an access to a name is a [set] of it or a [get] that hits it. *)
Section History.
Context {V : Type}.

Inductive op : Type :=
| Get (key : string) (now : Q)
| Set_ (key : string) (v : V) (ttl : option Z) (now : Q).

(** the cache after one operation ([set] raising leaves it as it was) *)
Definition step (c : @Cache V) (o : op) : @Cache V :=
  match o with
  | Get key now => fst (get c key now)
  | Set_ key v ttl now =>
      match set c key v ttl now with
      | Ok c' => c'
      | Raise _ => c
      end
  end.

(** does the operation access the name [k]? *)
Definition accesses (c : @Cache V) (o : op) (k : string) : bool :=
  match o with
  | Get key now =>
      String.eqb key k
      && match snd (get c key now) with Some _ => true | None => false end
  | Set_ key _ _ _ => String.eqb key k
  end.

(** the index of the last access to each name, the operations being numbered
    from [i] on and [last] holding the accesses made before them *)
Fixpoint last_access (c : @Cache V) (ops : list op) (i : nat)
    (last : string -> option nat) : string -> option nat :=
  match ops with
  | [] => last
  | o :: ops' =>
      last_access (step c o) ops' (S i)
                  (fun k => if accesses c o k then Some i else last k)
  end.

Definition run (c : @Cache V) (ops : list op) : @Cache V := fold_left step ops c.

(** [k1] was last accessed before [k2] *)
Definition older (last : string -> option nat) (k1 k2 : string) : Prop :=
  match last k1, last k2 with
  | Some a, Some b => (a < b)%nat
  | _, _ => False
  end.

(** the entries are in the order of their last access, all made before the
    operation of index [i] *)
Definition recency_inv (c : @Cache V) (last : string -> option nat) (i : nat)
  : Prop :=
  NoDup (keys (_cache c))
  /\ StronglySorted (older last) (keys (_cache c))
  /\ (forall k, In k (keys (_cache c)) -> last k <> None)
  /\ (forall k n, last k = Some n -> (n < i)%nat).
End History.

Arguments op V : clear implicits.
Arguments CacheEntry V : clear implicits.
Arguments Cache V : clear implicits.

Definition dq : string := String (ascii_of_nat 34) "".


(** ** The clock and the sleeps *)

Record World : Type := mkWorld {
  clock : Q;            (** what [time.time()] returns *)
  requests : nat;       (** HTTP requests issued so far *)
  sleeps : list Q       (** the arguments of the [time.sleep] calls, in order *)
}.

(** time passing between two calls of the program *)
Definition advance (d : Q) (w : World) : World :=
  {| clock := (clock w + d)%Q; requests := requests w; sleeps := sleeps w |}.

(** one more HTTP request issued *)
Definition issued (w : World) : World :=
  {| clock := clock w; requests := S (requests w); sleeps := sleeps w |}.

(** [time.sleep(d)]: a negative length raises [ValueError] *)
Definition sleep (d : Q) (w : World) : result unit * World :=
  if Qgtb 0 d then (Raise (ValueError "sleep length must be non-negative"), w)
  else (Ok tt, {| clock := (clock w + d)%Q; requests := requests w;
                  sleeps := (sleeps w ++ [d])%list |}).

(** [time.sleep(x)] on a float: an infinity does not fit the time type, a
    NaN is refused *)
Definition sleep_float (x : pyfloat) (w : World) : result unit * World :=
  match x with
  | Finite d => sleep d w
  | Infinity _ =>
      (Raise (OverflowError "timestamp too large to convert to C _PyTime_t"), w)
  | NaN => (Raise (ValueError "Invalid value NaN (not a number)"), w)
  end.

(** the longest sleep vouched for: [time.sleep] counts in nanoseconds on 64
    bits and refuses a length of more than some 9.2e9 seconds *)
Definition sleep_limit : Q := 9000000000.

(** ** [config.py] *)

Record Config : Type := mkConfig {
  api_key : option string;
  base_url : string;
  timeout : Z;
  rate_limit_calls : Z;
  rate_limit_period : Z;
  cache_enabled : bool;
  cache_ttl : Z;
  cache_max_size : Z;
  log_level : string;
  log_format : string;
  max_retries : Z;
  retry_delay : pyfloat;
  backoff_factor : pyfloat;
  default_limit : Z;
  max_limit : Z
}.

(** the defaults of the dataclass, with the given API key *)
Definition Config_default (key : option string) : Config :=
  {| api_key := key; base_url := "https://api.data.gov.in"; timeout := 30;
     rate_limit_calls := 100; rate_limit_period := 60;
     cache_enabled := true; cache_ttl := 3600; cache_max_size := 1000;
     log_level := "INFO";
     log_format := "%(asctime)s - %(name)s - %(levelname)s - %(message)s";
     max_retries := 3; retry_delay := Finite 1; backoff_factor := Finite 2;
     default_limit := 10; max_limit := 100 |}.

(** [Config.validate] *)
Definition validate (c : Config) : result unit :=
  if timeout c <=? 0 then Raise (ValueError "timeout must be positive")
  else if rate_limit_calls c <=? 0 then
    Raise (ValueError "rate_limit_calls must be positive")
  else if rate_limit_period c <=? 0 then
    Raise (ValueError "rate_limit_period must be positive")
  else if cache_ttl c <? 0 then
    Raise (ValueError "cache_ttl must be non-negative")
  else if max_retries c <? 0 then
    Raise (ValueError "max_retries must be non-negative")
  else if (default_limit c <=? 0) || (default_limit c >? max_limit c) then
    Raise (ValueError ("default_limit must be between 1 and "
                         ++ Json.of_int (max_limit c)))
  else Ok tt.

(** ** [api_client.py]: [RateLimiter] *)

Record RateLimiter : Type := mkRateLimiter {
  max_calls : Z;
  period : Z;
  calls : list Q
}.

Definition RateLimiter_init (max_calls period : Z) : RateLimiter :=
  {| max_calls := max_calls; period := period; calls := [] |}.

Definition with_calls (rl : RateLimiter) (l : list Q) : RateLimiter :=
  {| max_calls := max_calls rl; period := period rl; calls := l |}.

(** [now - call_time < self.period] *)
Definition in_window (now : Q) (period : Z) (call_time : Q) : bool :=
  Qgtb (inject_Z period) (now - call_time).

(** [self.calls.append(time.time())] *)
Definition record_call (rl : RateLimiter) (w : World) : RateLimiter :=
  with_calls rl (calls rl ++ [clock w])%list.

(** [RateLimiter.wait_if_needed].  [self.calls[0]] on an empty list raises
    [IndexError]. *)
Definition wait_if_needed (rl : RateLimiter) (w : World)
  : result unit * RateLimiter * World :=
  let now := clock w in
  let rl1 := with_calls rl (filter (in_window now (period rl)) (calls rl)) in
  if Z.of_nat (List.length (calls rl1)) >=? max_calls rl1 then
    match calls rl1 with
    | [] => (Raise (IndexError "list index out of range"), rl1, w)
    | oldest :: _ =>
        let sleep_time := (inject_Z (period rl1) - (now - oldest))%Q in
        if Qgtb sleep_time 0 then
          match sleep sleep_time w with
          | (Raise e, w1) => (Raise e, rl1, w1)
          | (Ok _, w1) =>
              let rl2 := with_calls rl1 [] in
              (Ok tt, record_call rl2 w1, w1)
          end
        else (Ok tt, record_call rl1 w, w)
    end
  else (Ok tt, record_call rl1 w, w).


(** the limiter and the clock after such a sequence of calls *)
Fixpoint after_calls (rl : RateLimiter) (w : World) (gaps : list Q)
  : option (RateLimiter * World) :=
  match gaps with
  | [] => Some (rl, w)
  | d :: gaps' =>
      match wait_if_needed rl (advance d w) with
      | (Ok _, rl1, w1) => after_calls rl1 w1 gaps'
      | (Raise _, _, _) => None
      end
  end.

(** what holds of the limiter when [wait_if_needed] has returned: at most
    [max_calls] timestamps recorded, all within the trailing [period] *)
Definition window_ok (rl : RateLimiter) (w : World) : Prop :=
  Z.of_nat (List.length (calls rl)) <= max_calls rl
  /\ Forall (fun t => (clock w - inject_Z (period rl) < t)%Q) (calls rl).





(** ** [api_client.py]: [DataGovInClient] *)

(** What the code reads of an [httpx.Response]: [raise_for_status] is
    [Some msg] when the call raises [HTTPStatusError(msg)], [json] is
    [inl msg] when decoding the body raises. *)
Record Response : Type := mkResponse {
  status_code : Z;
  text : string;
  raise_for_status : option string;
  json : string + pyval
}.

(** What [self.client.get(url, params=params)] does. *)
Inductive http_outcome : Type :=
| Raises (e : exn)
| Returns (r : Response).

Record DataGovInClient : Type := mkClient {
  config : Config;
  cache : option (Cache pyval);
  rate_limiter : RateLimiter
}.

(** [DataGovInClient.__init__] *)
Definition DataGovInClient_init (cfg : Config) : result DataGovInClient :=
  match validate cfg with
  | Raise e => Raise e
  | Ok _ =>
      Ok {| config := cfg;
            cache := if cache_enabled cfg
                     then Some (Cache_init (cache_max_size cfg) (cache_ttl cfg))
                     else None;
            rate_limiter :=
              RateLimiter_init (rate_limit_calls cfg) (rate_limit_period cfg) |}
  end.

Definition with_cache_of (cl : DataGovInClient) (c : option (Cache pyval))
  : DataGovInClient :=
  {| config := config cl; cache := c; rate_limiter := rate_limiter cl |}.

Definition with_rate_limiter (cl : DataGovInClient) (rl : RateLimiter)
  : DataGovInClient :=
  {| config := config cl; cache := cache cl; rate_limiter := rl |}.

(** what an [except] clause does with the exception it catches *)
Inductive handled : Type :=
| Recorded (last_exception : exn)     (** stored in [last_exception] *)
| Reraised (e : exn).                 (** [raise] *)

Section Client.

(** [urllib.parse.urljoin] and the HTTP transport behind [httpx.Client]:
    the outcome of the [n]-th request ([n] counted from 0 over the life of
    the client), given its URL and parameters. *)
Variable urljoin : string -> string -> string.
Variable transport : nat -> string -> dict -> http_outcome.

(** [x ** n] for a float [x] and an int [n]: the [pow] of the platform's C
    library, which Python turns into [OverflowError] when the result is out
    of range. *)
Variable float_pow : pyfloat -> Z -> result pyfloat.

(** [sleep_time = retry_delay * (backoff_factor ** attempt)] *)
Definition backoff_delay (cfg : Config) (attempt : Z) : result pyfloat :=
  match float_pow (backoff_factor cfg) attempt with
  | Raise e => Raise e
  | Ok p => Ok (fmul (retry_delay cfg) p)
  end.

(** [DataGovInClient._build_url] *)
Definition _build_url (cl : DataGovInClient) (resource_id : string) : string :=
  urljoin (base_url (config cl)) ("/resource/" ++ resource_id).

(** [self.client.get(url, params=params)] *)
Definition client_get (url : string) (params : dict) (w : World)
  : http_outcome * World :=
  (transport (requests w) url params, issued w).

(** The [try] block of [_make_request]: it returns [data] or raises. *)
Definition try_block (cl : DataGovInClient) (resource_id url : string)
    (params : dict) (use_cache : bool) (cache_key : string) (w : World)
  : result pyval * DataGovInClient * World :=
  match client_get url params w with
  | (Raises e, w1) => (Raise e, cl, w1)
  | (Returns response, w1) =>
      if status_code response =? 404 then
        (Raise (ResourceNotFoundError resource_id), cl, w1)
      else if status_code response =? 429 then
        (Raise RateLimitError, cl, w1)
      else if status_code response >=? 400 then
        (Raise (APIError (status_code response) (text response)), cl, w1)
      else
        match raise_for_status response with
        | Some e => (Raise (PyException e), cl, w1)
        | None =>
            match json response with
            | inl e => (Raise (PyException e), cl, w1)
            | inr data =>
                match (if use_cache then cache cl else None) with
                | Some c =>
                    match set c cache_key data None (clock w1) with
                    | Ok c' => (Ok data, with_cache_of cl (Some c'), w1)
                    | Raise e => (Raise e, cl, w1)
                    end
                | None => (Ok data, cl, w1)
                end
            end
        end
  end.

(** The [except] clauses, in the order they are tried. *)
Definition except_clause (e : exn) : handled :=
  match e with
  | HttpxTimeoutException m =>
      Recorded (NetworkError ("Request timeout: " ++ m))
  | HttpxNetworkError m =>
      Recorded (NetworkError ("Network error: " ++ m))
  | APIError _ _ | RateLimitError | ResourceNotFoundError _ => Reraised e
  | _ => Recorded (APIError 500 ("Unexpected error: " ++ str e))
  end.

(** The [for attempt in range(max_retries + 1)] loop, entered at
    [attempt] with [remaining] iterations to go, and the [raise] after
    it. *)
Fixpoint dispatch_loop (remaining : nat) (attempt : Z)
    (last_exception : option exn)
    (cl : DataGovInClient) (resource_id url : string) (params : dict)
    (use_cache : bool) (cache_key : string) (w : World)
  : result pyval * DataGovInClient * World :=
  match remaining with
  | O =>
      (Raise (match last_exception with
              | Some e => e
              | None => NetworkError "All retry attempts failed"
              end), cl, w)
  | S remaining' =>
      match try_block cl resource_id url params use_cache cache_key w with
      | (Ok data, cl1, w1) => (Ok data, cl1, w1)
      | (Raise e, cl1, w1) =>
          match except_clause e with
          | Reraised e' => (Raise e', cl1, w1)
          | Recorded e' =>
              (** [if attempt < self.config.max_retries: time.sleep(...)] *)
              if attempt <? max_retries (config cl1) then
                match backoff_delay (config cl1) attempt with
                | Raise e2 => (Raise e2, cl1, w1)
                | Ok sleep_time =>
                    match sleep_float sleep_time w1 with
                    | (Raise e2, w2) => (Raise e2, cl1, w2)
                    | (Ok _, w2) =>
                        dispatch_loop remaining' (attempt + 1) (Some e') cl1
                                      resource_id url params use_cache
                                      cache_key w2
                    end
                end
              else
                dispatch_loop remaining' (attempt + 1) (Some e') cl1
                              resource_id url params use_cache cache_key w1
          end
      end
  end.

(** [not self.config.api_key] *)
Definition api_key_of (cfg : Config) : option string :=
  match api_key cfg with
  | Some "" => None
  | k => k
  end.

(** [params = params or {}], then the API key and the format flag *)
Definition request_params (key : string) (params : option dict) : dict :=
  let params := match params with Some p => p | None => [] end in
  let params := setitem params "api-key" (PStr key) in
  setdefault params "format" (PStr "json").

(** the cache check: [Some cached] when [cached is not None] *)
Definition cache_lookup (cl : DataGovInClient) (use_cache : bool)
    (cache_key : string) (w : World) : DataGovInClient * option pyval :=
  match (if use_cache then cache cl else None) with
  | Some c =>
      let '(c', cached) := get c cache_key (clock w) in
      (with_cache_of cl (Some c'),
       match cached with
       | Some PNone => None
       | other => other
       end)
  | None => (cl, None)
  end.

(** [DataGovInClient._make_request] *)
Definition _make_request (cl : DataGovInClient) (resource_id : string)
    (params : option dict) (use_cache : bool) (w : World)
  : result pyval * DataGovInClient * World :=
  match api_key_of (config cl) with
  | None => (Raise APIKeyMissingError, cl, w)
  | Some key =>
      let params := request_params key params in
      let cache_key := _make_key [PStr resource_id] params in
      match cache_lookup cl use_cache cache_key w with
      | (cl1, Some cached) => (Ok cached, cl1, w)
      | (cl1, None) =>
          match wait_if_needed (rate_limiter cl1) w with
          | (Raise e, rl, w1) => (Raise e, with_rate_limiter cl1 rl, w1)
          | (Ok _, rl, w1) =>
              let cl2 := with_rate_limiter cl1 rl in
              dispatch_loop (Z.to_nat (max_retries (config cl2) + 1)) 0 None
                            cl2 resource_id (_build_url cl2 resource_id)
                            params use_cache cache_key w1
          end
      end
  end.

(** [limit or self.config.default_limit] *)
Definition limit_or_default (limit : option Z) (default : Z) : Z :=
  match limit with
  | Some l => if l =? 0 then default else l
  | None => default
  end.

(** [DataGovInClient.get_resource] *)
Definition get_resource (cl : DataGovInClient) (resource_id : string)
    (filters : option dict) (offset : Z) (limit : option Z) (w : World)
  : result pyval * DataGovInClient * World :=
  let limit := limit_or_default limit (default_limit (config cl)) in
  if limit >? max_limit (config cl) then
    (Raise (InvalidParameterError
              "limit" ("Cannot exceed " ++ Json.of_int (max_limit (config cl)))),
     cl, w)
  else
    let params := [("offset", PInt offset); ("limit", PInt limit)] in
    let params :=
      match filters with
      | Some ((_ :: _) as f) => setitem params "filters" (PDict f)
      | _ => params
      end in
    _make_request cl resource_id (Some params) true w.

End Client.

(** ** Notions used to state the properties of the dispatch loop *)

(** the exception the [try] block raises on an outcome of the transport
    before it gets to store and return the decoded body, if any *)
Definition raised_by (resource_id : string) (o : http_outcome) : option exn :=
  match o with
  | Raises e => Some e
  | Returns response =>
      if status_code response =? 404 then Some (ResourceNotFoundError resource_id)
      else if status_code response =? 429 then Some RateLimitError
      else if status_code response >=? 400 then
        Some (APIError (status_code response) (text response))
      else
        match raise_for_status response with
        | Some e => Some (PyException e)
        | None =>
            match json response with
            | inl e => Some (PyException e)
            | inr _ => None
            end
        end
  end.

(** the typed error of an HTTP status of 400 or more *)
Definition status_error (resource_id : string) (response : Response) : exn :=
  if status_code response =? 404 then ResourceNotFoundError resource_id
  else if status_code response =? 429 then RateLimitError
  else APIError (status_code response) (text response).

Section Backoff.
Variable float_pow : pyfloat -> Z -> result pyfloat.

(** the backoff after the failed attempt [attempt] goes through with a sleep
    of [d] seconds: the code computes the float [d] without [OverflowError],
    and [time.sleep] takes it *)
Definition backoff_sleep (cfg : Config) (attempt : Z) (d : Q) : Prop :=
  backoff_delay float_pow cfg attempt = Ok (Finite d) /\ (0 <= d)%Q.

(** [ds] are the sleeps of consecutive retries, the first after [attempt] *)
Fixpoint backoff_delays (cfg : Config) (attempt : Z) (ds : list Q) : Prop :=
  match ds with
  | [] => True
  | d :: ds' =>
      backoff_sleep cfg attempt d /\ backoff_delays cfg (attempt + 1) ds'
  end.

(** the backoff after [attempt] goes through *)
Definition backoff_passes (cfg : Config) (attempt : Z) : Prop :=
  exists d, backoff_sleep cfg attempt d /\ (d <= sleep_limit)%Q.

End Backoff.

(** what [last_exception] becomes on an outcome whose exception is recorded *)
Definition recorded_of (resource_id : string) (o : http_outcome) : exn :=
  match raised_by resource_id o with
  | Some e =>
      match except_clause e with
      | Recorded e' => e'
      | Reraised e' => e'
      end
  | None => NetworkError "All retry attempts failed"
  end.

(** A call of [_make_request] gets to the dispatch loop: an API key is set
    (it is [key]), the cache is not used or has no usable entry for the
    request, and the limiter and the retry count are as [Config.validate]
    leaves them. *)
Definition reaches_dispatch (cl : DataGovInClient) (resource_id : string)
    (params : option dict) (use_cache : bool) (w : World) (key : string)
  : Prop :=
  api_key_of (config cl) = Some key
  /\ snd (cache_lookup cl use_cache
            (_make_key [PStr resource_id] (request_params key params)) w) = None
  /\ 0 < max_calls (rate_limiter cl)
  /\ 0 < period (rate_limiter cl)
  /\ 0 <= max_retries (config cl).

(** the transport fails with a timeout or a network error *)
Definition transport_failure (o : http_outcome) : Prop :=
  exists m, o = Raises (HttpxTimeoutException m) \/ o = Raises (HttpxNetworkError m).

(** an exception that is neither an [httpx] timeout or network error nor one
    of the three typed API errors *)
Definition unexpected (e : exn) : Prop :=
  match e with
  | HttpxTimeoutException _ | HttpxNetworkError _
  | APIError _ _ | RateLimitError | ResourceNotFoundError _ => False
  | _ => True
  end.

(** an attempt whose exception is recorded: the loop goes on *)
Definition fails_retryably (resource_id : string) (o : http_outcome) : Prop :=
  exists e e', raised_by resource_id o = Some e /\ except_clause e = Recorded e'.

(** ** Stubs for the scenarios of the test suite *)

(** [urljoin] of a base without path and an absolute path *)
Definition stub_urljoin (base path : string) : string := base ++ path.

Definition world0 : World := {| clock := 0; requests := 0; sleeps := [] |}.

(** [Config(api_key="test-key", cache_enabled=..., max_retries=...)] *)
Definition Config_test (enabled : bool) (retries : Z) : Config :=
  {| api_key := Some "test-key"; base_url := "https://api.data.gov.in";
     timeout := 30; rate_limit_calls := 100; rate_limit_period := 60;
     cache_enabled := enabled; cache_ttl := 3600; cache_max_size := 1000;
     log_level := "INFO";
     log_format := "%(asctime)s - %(name)s - %(levelname)s - %(message)s";
     max_retries := retries; retry_delay := Finite 1;
     backoff_factor := Finite 2;
     default_limit := 10; max_limit := 100 |}.

(** [dataclasses.replace(cfg, retry_delay=delay, backoff_factor=factor)] *)
Definition with_backoff (cfg : Config) (delay factor : pyfloat) : Config :=
  {| api_key := api_key cfg; base_url := base_url cfg; timeout := timeout cfg;
     rate_limit_calls := rate_limit_calls cfg;
     rate_limit_period := rate_limit_period cfg;
     cache_enabled := cache_enabled cfg; cache_ttl := cache_ttl cfg;
     cache_max_size := cache_max_size cfg;
     log_level := log_level cfg; log_format := log_format cfg;
     max_retries := max_retries cfg; retry_delay := delay;
     backoff_factor := factor;
     default_limit := default_limit cfg; max_limit := max_limit cfg |}.

(** a [pow] that is correctly rounded: the exact power of a finite float,
    rounded to the nearest float *)
Definition stub_pow (x : pyfloat) (n : Z) : result pyfloat :=
  if n =? 0 then Ok (Finite 1)
  else
    match x with
    | Finite q =>
        if (Qnum q =? 0) && (n <? 0) then
          Raise (ZeroDivisionError "0.0 cannot be raised to a negative power")
        else
          match round64 (q ^ n) with
          | Infinity _ =>
              Raise (OverflowError "(34, 'Numerical result out of range')")
          | y => Ok y
          end
    | Infinity negative =>
        if n <? 0 then Ok (Finite 0) else Ok (Infinity (negative && Z.odd n))
    | NaN => Ok NaN
    end.

(** the client [DataGovInClient(Config_test ...)] builds *)
Definition client_test (enabled : bool) (retries : Z) : DataGovInClient :=
  {| config := Config_test enabled retries;
     cache := if enabled then Some (Cache_init 1000 3600) else None;
     rate_limiter := RateLimiter_init 100 60 |}.

Definition response_of (status : Z) (body : string) (data : string + pyval)
  : Response :=
  {| status_code := status; text := body; raise_for_status := None;
     json := data |}.

(** [{"records": [], "total": 0}] *)
Definition empty_page : pyval :=
  PDict [("records", PList []); ("total", PInt 0)].

(** a transport that always raises [httpx.TimeoutException("Timeout")] *)
Definition always_times_out (n : nat) (url : string) (params : dict)
  : http_outcome :=
  Raises (HttpxTimeoutException "Timeout").

(** a transport that always returns the same response *)
Definition always_returns (r : Response) (n : nat) (url : string)
    (params : dict) : http_outcome :=
  Returns r.

(** a transport that times out once and then returns [r] *)
Definition times_out_once (r : Response) (n : nat) (url : string)
    (params : dict) : http_outcome :=
  match n with
  | O => Raises (HttpxTimeoutException "Timeout")
  | S _ => Returns r
  end.

(** a transport that answers with the [filters] parameter it is given *)
Definition echoes_filters (n : nat) (url : string) (params : dict)
  : http_outcome :=
  Returns (response_of 200 ""
             (inr match lookup params "filters" with
                  | Some v => v
                  | None => PNone
                  end)).

(** ** Notions used to state further properties *)

(** the number of [get] among the operations *)
Definition lookups {V : Type} (ops : list (op V)) : Z :=
  Z.of_nat (List.length
              (filter (fun o => match o with Get _ _ => true | Set_ _ _ _ _ => false end)
                      ops)).

(** what every history keeps of a cache built with capacity [m]: distinct
    names, at most [m] entries, counters that add up to the [n] lookups made *)
Definition cache_inv {V : Type} (m : Z) (c : Cache V) (n : Z) : Prop :=
  max_size c = m
  /\ NoDup (keys (_cache c))
  /\ Z.of_nat (List.length (_cache c)) <= m
  /\ 0 <= _hits c /\ 0 <= _misses c /\ _hits c + _misses c = n.

(** the cache used by a request has room for an entry *)
Definition cache_has_room (cl : DataGovInClient) (use_cache : bool) : Prop :=
  match (if use_cache then cache cl else None) with
  | Some c => 0 < max_size c
  | None => True
  end.

(** [DataGovInClient.get_cache_stats] *)
Definition get_cache_stats (cl : DataGovInClient) : result (option dict) :=
  match cache cl with
  | Some c =>
      match stats c with
      | Ok d => Ok (Some d)
      | Raise e => Raise e
      end
  | None => Ok None
  end.

(** [DataGovInClient.clear_cache] *)
Definition clear_cache (cl : DataGovInClient) : DataGovInClient :=
  match cache cl with
  | Some c => with_cache_of cl (Some (clear c))
  | None => cl
  end.

(** * Properties *)

Example sha256_abc :
  SHA256.hexdigest (SHA256.encode "abc")
  = "ba7816bf8f01cfea414140de5dae2223b00361a396177a9cb410ff61f20015ad".
Proof. vm_compute. reflexivity. Qed.

Example sha256_constants :
  nth 0 SHA256.K 0 = 0x428a2f98 /\ nth 63 SHA256.K 0 = 0xc67178f2
  /\ nth 0 SHA256.H0 0 = 0x6a09e667 /\ nth 7 SHA256.H0 0 = 0x5be0cd19.
Proof. repeat split. Qed.

Example sha256_empty :
  SHA256.hexdigest (SHA256.encode "")
  = "e3b0c44298fc1c149afbf4c8996fb92427ae41e4649b934ca495991b7852b855".
Proof. vm_compute. reflexivity. Qed.

Example sha256_two_blocks :
  SHA256.hexdigest
    (SHA256.encode "abcdbcdecdefdefgefghfghighijhijkijkljklmklmnlmnomnopnopq")
  = "248d6a61d20638b8e5c026930c3e6039a33ce45964ff2167f6ecedd419db06c1".
Proof. vm_compute. reflexivity. Qed.

Lemma Qgtb_true x y : Qgtb x y = true <-> (y < x)%Q.
Proof.
  unfold Qgtb. rewrite negb_true_iff. split; intros H.
  - apply Qnot_le_lt. intros L. apply Qle_bool_iff in L. congruence.
  - destruct (Qle_bool x y) eqn:E; [|reflexivity].
    apply Qle_bool_iff in E. exfalso. apply (Qlt_not_le _ _ H E).
Qed.

Lemma Qgtb_false x y : Qgtb x y = false <-> (x <= y)%Q.
Proof.
  unfold Qgtb. rewrite negb_false_iff. apply Qle_bool_iff.
Qed.

Example make_key_text :
  key_str [PStr "R"] [("b", PInt 2); ("a", PInt 1)]
  = "{" ++ dq ++ "args" ++ dq ++ ": [" ++ dq ++ "R" ++ dq ++ "], "
        ++ dq ++ "kwargs" ++ dq ++ ": [[" ++ dq ++ "a" ++ dq ++ ", 1], ["
        ++ dq ++ "b" ++ dq ++ ", 2]]}".
Proof. reflexivity. Qed.

(** ** The order on names *)

Lemma ascii_compare_refl (c : ascii) : Ascii.compare c c = Eq.
Proof. unfold Ascii.compare. apply N.compare_refl. Qed.

Lemma ascii_compare_lt_trans (a b c : ascii) :
  Ascii.compare a b = Lt -> Ascii.compare b c = Lt -> Ascii.compare a c = Lt.
Proof.
  unfold Ascii.compare. rewrite !N.compare_lt_iff. apply N.lt_trans.
Qed.

Lemma string_compare_lt_trans (a b c : string) :
  String.compare a b = Lt -> String.compare b c = Lt -> String.compare a c = Lt.
Proof.
  revert b c. induction a as [|x a IH]; intros [|y b] [|z c]; simpl;
    try discriminate; try reflexivity.
  destruct (Ascii.compare x y) eqn:Exy; try discriminate;
    destruct (Ascii.compare y z) eqn:Eyz; try discriminate; intros H1 H2.
  - apply Ascii.compare_eq_iff in Exy, Eyz. subst.
    rewrite ascii_compare_refl. eauto.
  - apply Ascii.compare_eq_iff in Exy. subst. now rewrite Eyz.
  - apply Ascii.compare_eq_iff in Eyz. subst. now rewrite Exy.
  - now rewrite (ascii_compare_lt_trans _ _ _ Exy Eyz).
Qed.

Lemma ltb_trans (a b c : string) :
  String.ltb a b = true -> String.ltb b c = true -> String.ltb a c = true.
Proof.
  unfold String.ltb. intros H1 H2.
  destruct (String.compare a b) eqn:E1; try discriminate.
  destruct (String.compare b c) eqn:E2; try discriminate.
  now rewrite (string_compare_lt_trans _ _ _ E1 E2).
Qed.

Lemma ltb_asym (a b : string) :
  String.ltb a b = true -> String.ltb b a = true -> False.
Proof.
  unfold String.ltb. rewrite (String.compare_antisym b a).
  destruct (String.compare a b); simpl; discriminate.
Qed.

Lemma ltb_total (a b : string) :
  a <> b -> String.ltb a b = false -> String.ltb b a = true.
Proof.
  unfold String.ltb. intros Hne. rewrite (String.compare_antisym b a).
  destruct (String.compare a b) eqn:E; simpl; try discriminate; auto.
  apply String.compare_eq_iff in E. contradiction.
Qed.

(** ** [sorted] is insensitive to the order of the items *)
Section Sorted_items_facts.
Context {V : Type}.
Implicit Types (x y : string * V) (l : list (string * V)).

Lemma insert_item_perm x l : Permutation (x :: l) (insert_item x l).
Proof.
  induction l as [|y l IH]; simpl; [reflexivity|].
  destruct (String.ltb (fst x) (fst y)); [reflexivity|].
  rewrite perm_swap. now constructor.
Qed.

Lemma sorted_items_perm l : Permutation l (sorted_items l).
Proof.
  induction l as [|x l IH]; simpl; [constructor|].
  rewrite <- insert_item_perm. now constructor.
Qed.

Lemma insert_item_sorted x l :
  ~ In (fst x) (keys l) ->
  StronglySorted lt_item l -> StronglySorted lt_item (insert_item x l).
Proof.
  induction l as [|y l IH]; simpl; intros Hx Hs.
  - repeat constructor.
  - apply StronglySorted_inv in Hs as [Hs Hy].
    destruct (String.ltb (fst x) (fst y)) eqn:E.
    + constructor; [now constructor|]. constructor; [exact E|].
      eapply Forall_impl; [|exact Hy]. intros z Hz.
      unfold lt_item in *. eapply ltb_trans; eauto.
    + constructor; [apply IH; tauto|].
      rewrite <- insert_item_perm. constructor; [|exact Hy].
      unfold lt_item. apply ltb_total; [|exact E]. intros Heq. apply Hx. now left.
Qed.

Lemma sorted_items_sorted l :
  NoDup (keys l) -> StronglySorted lt_item (sorted_items l).
Proof.
  induction l as [|x l IH]; simpl; intros Hnd; [constructor|].
  inversion Hnd as [|? ? Hx Hnd']; subst.
  apply insert_item_sorted; [|auto].
  intros Hin. apply Hx. unfold keys in *.
  eapply Permutation_in; [|exact Hin].
  apply Permutation_map. symmetry. apply sorted_items_perm.
Qed.

Lemma sorted_unique l1 l2 :
  StronglySorted lt_item l1 -> StronglySorted lt_item l2 ->
  Permutation l1 l2 -> l1 = l2.
Proof.
  revert l2. induction l1 as [|a l1 IH]; intros l2 H1 H2 P.
  - now apply Permutation_nil in P.
  - destruct l2 as [|b l2]; [symmetry in P; now apply Permutation_nil in P|].
    apply StronglySorted_inv in H1 as [H1 Ha].
    apply StronglySorted_inv in H2 as [H2 Hb].
    assert (a = b) as ->.
    { assert (Ia : In a (b :: l2)) by (eapply Permutation_in; [exact P|now left]).
      assert (Ib : In b (a :: l1))
        by (eapply Permutation_in; [symmetry; exact P|now left]).
      destruct Ia as [->|Ia]; [reflexivity|].
      destruct Ib as [->|Ib]; [reflexivity|].
      rewrite Forall_forall in Ha, Hb.
      exfalso. exact (ltb_asym _ _ (Ha _ Ib) (Hb _ Ia)). }
    f_equal. apply IH; auto. eapply Permutation_cons_inv; eauto.
Qed.

Lemma sorted_items_permutation l1 l2 :
  NoDup (keys l1) -> Permutation l1 l2 -> sorted_items l1 = sorted_items l2.
Proof.
  intros Hnd P.
  assert (Hnd2 : NoDup (keys l2)).
  { eapply Permutation_NoDup; [|exact Hnd]. now apply Permutation_map. }
  apply sorted_unique; try now apply sorted_items_sorted.
  rewrite <- (sorted_items_perm l1), <- (sorted_items_perm l2). exact P.
Qed.
End Sorted_items_facts.

(** ** Cache keys *)

Lemma append_inj_l (a b c : string) : a ++ b = a ++ c -> b = c.
Proof.
  induction a as [|x a IH]; simpl; intros H; [exact H|].
  injection H as H. auto.
Qed.

Lemma append_assoc (a b c : string) : (a ++ b) ++ c = a ++ b ++ c.
Proof. induction a as [|x a IH]; simpl; [reflexivity|now rewrite IH]. Qed.

Lemma make_key_permutation (args : list pyval) (kw1 kw2 : dict) :
  NoDup (keys kw1) -> Permutation kw1 kw2 ->
  _make_key args kw1 = _make_key args kw2.
Proof.
  intros Hnd P. unfold _make_key, key_str, key_dict.
  now rewrite (sorted_items_permutation kw1 kw2 Hnd P).
Qed.

Lemma key_str_differs (resource_id : string) :
  key_str [PStr resource_id] [("a", PInt 1); ("b", PInt 2)]
  <> key_str [PStr resource_id] [("a", PInt 1); ("b", PInt 3)].
Proof.
  unfold key_str, key_dict. cbn -[Json.quote String.append].
  intros H.
  apply append_inj_l in H.
  rewrite !append_assoc in H.
  repeat (apply append_inj_l in H).
  discriminate H.
Qed.

Example make_key_digest :
  _make_key [PStr "R"] [("b", PInt 2); ("a", PInt 1)]
  = "39a606d2f9fed5b7c19d4aaf9fd53e480a42f72518f9f8ce6d71831f2315702a".
Proof. vm_compute. reflexivity. Qed.

Example make_key_request :
  _make_key [PStr "R"]
    [("offset", PInt 0); ("limit", PInt 10); ("api-key", PStr "k");
     ("format", PStr "json");
     ("filters", PDict [("z", PStr "1");
                        ("a", PStr (String (ascii_of_nat 127)
                                     (String (ascii_of_nat 233)
                                       (String (ascii_of_nat 34)
                                         (String (ascii_of_nat 92)
                                           (String (ascii_of_nat 10) ""))))))])]
  = "bdd225e1400a349c3723e5d56e06701837013f7bf9969e9959e0a90ae4441f9d".
Proof. vm_compute. reflexivity. Qed.

(** C8.  [_make_key] does not depend on the order in which the parameters
    were inserted: two mappings holding the same (name, value) pairs get the
    same key.  In particular the key of [{a: 1, b: 2}] is the key of
    [{b: 2, a: 1}] for every resource id; the serialised form of
    [{a: 1, b: 3}] differs from that of [{a: 1, b: 2}] for every resource id,
    and so do the two digests for the id ["R"]. *)
Theorem make_key_order_independent :
  (forall (resource_id : string) (params1 params2 : dict),
      NoDup (keys params1) -> Permutation params1 params2 ->
      _make_key [PStr resource_id] params1 = _make_key [PStr resource_id] params2)
  /\ (forall resource_id : string,
         _make_key [PStr resource_id] [("a", PInt 1); ("b", PInt 2)]
         = _make_key [PStr resource_id] [("b", PInt 2); ("a", PInt 1)])
  /\ (forall resource_id : string,
         key_str [PStr resource_id] [("a", PInt 1); ("b", PInt 2)]
         <> key_str [PStr resource_id] [("a", PInt 1); ("b", PInt 3)])
  /\ _make_key [PStr "R"] [("a", PInt 1); ("b", PInt 2)]
     <> _make_key [PStr "R"] [("a", PInt 1); ("b", PInt 3)].
Proof.
  split; [|split; [|split]].
  - intros. now apply make_key_permutation.
  - intros. reflexivity.
  - apply key_str_differs.
  - vm_compute. discriminate.
Qed.

(** ** Association lists *)
Section Dict_facts.
Context {V : Type}.
Implicit Types (d : list (string * V)) (k : string).

Lemma contains_In d k : contains d k = true <-> In k (keys d).
Proof.
  induction d as [|[k' v] d IH]; simpl; [intuition discriminate|].
  destruct (String.eqb_spec k' k); [intuition|].
  rewrite IH. intuition congruence.
Qed.

Lemma contains_false d k : contains d k = false <-> ~ In k (keys d).
Proof.
  rewrite <- contains_In. destruct (contains d k); intuition congruence.
Qed.

Lemma lookup_contains d k v : lookup d k = Some v -> contains d k = true.
Proof.
  induction d as [|[k' v'] d IH]; simpl; [discriminate|].
  destruct (String.eqb k' k); auto.
Qed.

Lemma contains_lookup d k : contains d k = true -> exists v, lookup d k = Some v.
Proof.
  induction d as [|[k' v'] d IH]; simpl; [discriminate|].
  destruct (String.eqb k' k); eauto.
Qed.

Lemma keys_app d1 d2 : keys (d1 ++ d2) = (keys d1 ++ keys d2)%list.
Proof. apply map_app. Qed.

Lemma keys_remove_key d k : keys (remove_key d k) = List.remove string_dec k (keys d).
Proof.
  induction d as [|[k' v] d IH]; simpl; [reflexivity|].
  destruct (String.eqb_spec k' k); destruct (string_dec k k'); subst;
    simpl; congruence.
Qed.

Lemma remove_key_absent d k : ~ In k (keys d) -> remove_key d k = d.
Proof.
  induction d as [|[k' v] d IH]; simpl; intros H; [reflexivity|].
  destruct (String.eqb_spec k' k); [tauto|]. rewrite IH; tauto.
Qed.

Lemma In_remove_key d k k' :
  In k' (keys (remove_key d k)) <-> In k' (keys d) /\ k' <> k.
Proof.
  rewrite keys_remove_key. split.
  - intros H. apply in_remove in H. tauto.
  - intros [H1 H2]. now apply in_in_remove.
Qed.

Lemma NoDup_remove_key d k : NoDup (keys d) -> NoDup (keys (remove_key d k)).
Proof.
  induction d as [|[k' v] d IH]; simpl; intros H; [constructor|].
  inversion H as [|? ? Hn Hd]; subst.
  destruct (String.eqb k' k); simpl; auto.
  constructor; auto. rewrite In_remove_key. tauto.
Qed.

Lemma length_remove_key d k :
  NoDup (keys d) -> In k (keys d) ->
  S (List.length (remove_key d k)) = List.length d.
Proof.
  induction d as [|[k' v] d IH]; simpl; intros Hd Hin; [contradiction|].
  inversion Hd as [|? ? Hn Hd']; subst.
  destruct (String.eqb_spec k' k).
  - subst. now rewrite remove_key_absent.
  - simpl. f_equal. apply IH; auto. destruct Hin; [contradiction|assumption].
Qed.

Lemma lookup_app_absent d1 d2 k :
  ~ In k (keys d1) -> lookup (d1 ++ d2) k = lookup d2 k.
Proof.
  induction d1 as [|[k' v] d1 IH]; simpl; intros H; [reflexivity|].
  destruct (String.eqb_spec k' k); [tauto|]. apply IH. tauto.
Qed.

Lemma lookup_app_present d1 d2 k v :
  lookup d1 k = Some v -> lookup (d1 ++ d2) k = Some v.
Proof.
  induction d1 as [|[k' v'] d1 IH]; simpl; [discriminate|].
  destruct (String.eqb k' k); auto.
Qed.

Lemma lookup_remove_key_other d k k' :
  k' <> k -> lookup (remove_key d k) k' = lookup d k'.
Proof.
  induction d as [|[k0 v] d IH]; simpl; intros H; [reflexivity|].
  destruct (String.eqb_spec k0 k); simpl.
  - subst. destruct (String.eqb_spec k k'); [congruence|auto].
  - destruct (String.eqb k0 k'); auto.
Qed.

Lemma lookup_singleton k (v : V) : lookup [(k, v)] k = Some v.
Proof. simpl. now rewrite String.eqb_refl. Qed.
End Dict_facts.

(** ** The cache *)
Section Cache_facts.
Context {V : Type}.
Implicit Types (c : Cache V) (e : CacheEntry V) (k key : string).

Lemma is_expired_false e now : is_expired e now = false <-> (now <= expiry e)%Q.
Proof. apply Qgtb_false. Qed.

Lemma is_expired_true e now : is_expired e now = true <-> (expiry e < now)%Q.
Proof. apply Qgtb_true. Qed.

(** a hit: the entry moves to the tail and the hit is counted *)
Lemma get_hit c key e now :
  lookup (_cache c) key = Some e -> is_expired e now = false ->
  get c key now
  = (count_hit (with_cache c (remove_key (_cache c) key ++ [(key, e)])%list),
     Some (value e)).
Proof.
  intros Hl He. unfold get, move_to_end. now rewrite Hl, He.
Qed.

(** an expired entry: it is deleted and a miss is counted *)
Lemma get_expired c key e now :
  lookup (_cache c) key = Some e -> is_expired e now = true ->
  get c key now
  = (count_miss (with_cache c (remove_key (_cache c) key)), None).
Proof.
  intros Hl He. unfold get. now rewrite Hl, He.
Qed.

Lemma get_absent c key now :
  lookup (_cache c) key = None -> get c key now = (count_miss c, None).
Proof. intros Hl. unfold get. now rewrite Hl. Qed.

(** a new name written to a full cache: the head is dropped *)
Lemma set_full c key v ttl now x rest :
  _cache c = x :: rest ->
  contains (_cache c) key = false ->
  max_size c <= Z.of_nat (List.length (_cache c)) ->
  set c key v ttl now
  = Ok (with_cache c
          (rest ++ [(key, CacheEntry_init v (ttl_or_default ttl (default_ttl c))
                            now)])%list).
Proof.
  intros Hc Hk Hfull. unfold set. rewrite Hk.
  destruct (Z.geb_spec (Z.of_nat (List.length (_cache c))) (max_size c)); [|lia].
  now rewrite Hc.
Qed.

(** [set] keeps the names distinct *)
Lemma set_NoDup c key v ttl now c' :
  NoDup (keys (_cache c)) -> set c key v ttl now = Ok c' ->
  NoDup (keys (_cache c')).
Proof.
  intros Hnd. unfold set.
  assert (Hadd : forall d, NoDup (keys d) -> ~ In key (keys d) ->
                           NoDup (keys (d ++ [(key, CacheEntry_init v
                             (ttl_or_default ttl (default_ttl c)) now)]))).
  { intros d Hd Hn. rewrite keys_app. simpl.
    apply NoDup_app; [exact Hd|repeat constructor; simpl; tauto|].
    intros a Ha [<-|[]]. contradiction. }
  destruct (contains (_cache c) key) eqn:Hk.
  - intros [= <-]. simpl. apply Hadd; [now apply NoDup_remove_key|].
    rewrite In_remove_key. tauto.
  - apply contains_false in Hk.
    destruct (Z.of_nat (List.length (_cache c)) >=? max_size c).
    + destruct (_cache c) as [|x rest] eqn:Hc; [discriminate|].
      intros [= <-]. simpl. simpl in Hnd, Hk. inversion Hnd; subst.
      apply Hadd; tauto.
    + intros [= <-]. simpl. now apply Hadd.
Qed.

(** the size never exceeds [max_size] *)
Lemma set_size_bound c key v ttl now c' :
  NoDup (keys (_cache c)) ->
  Z.of_nat (List.length (_cache c)) <= max_size c ->
  set c key v ttl now = Ok c' ->
  max_size c' = max_size c /\
  Z.of_nat (List.length (_cache c')) <= max_size c'.
Proof.
  intros Hnd Hle. unfold set.
  destruct (contains (_cache c) key) eqn:Hk.
  - intros [= <-]. simpl. split; [reflexivity|].
    apply contains_In in Hk.
    pose proof (length_remove_key _ _ Hnd Hk) as Hlen.
    rewrite length_app. simpl. lia.
  - destruct (Z.geb_spec (Z.of_nat (List.length (_cache c))) (max_size c)).
    + destruct (_cache c) as [|x rest] eqn:Hc; [discriminate|].
      intros [= <-]. simpl. split; [reflexivity|].
      rewrite length_app. simpl in *. lia.
    + intros [= <-]. simpl. split; [reflexivity|].
      rewrite length_app. simpl. lia.
Qed.

Lemma get_NoDup c key now :
  NoDup (keys (_cache c)) -> NoDup (keys (_cache (fst (get c key now)))).
Proof.
  intros Hnd. unfold get, move_to_end.
  destruct (lookup (_cache c) key) as [e|] eqn:Hl; [|exact Hnd].
  destruct (is_expired e now); simpl.
  - now apply NoDup_remove_key.
  - rewrite keys_app. simpl.
    apply NoDup_app; [now apply NoDup_remove_key|repeat constructor; simpl; tauto|].
    intros a Ha [<-|[]]. rewrite In_remove_key in Ha. tauto.
Qed.
End Cache_facts.

Section Cache_store.
Context {V : Type}.
Implicit Types (c : Cache V) (key : string).


(** with room for one entry at least, [set] returns and the entry is there *)
Lemma set_stores c key (v : V) ttl now :
  0 < max_size c ->
  exists c',
    set c key v ttl now = Ok c'
    /\ lookup (_cache c') key
       = Some (CacheEntry_init v (ttl_or_default ttl (default_ttl c)) now)
    /\ max_size c' = max_size c /\ default_ttl c' = default_ttl c
    /\ _hits c' = _hits c /\ _misses c' = _misses c.
Proof.
  intros Hpos. unfold set.
  assert (Hadd : forall (d : list (string * CacheEntry V)) x,
             ~ In key (keys d) -> lookup (d ++ [(key, x)]) key = Some x).
  { intros d x Hd. rewrite lookup_app_absent by exact Hd. apply lookup_singleton. }
  destruct (contains (_cache c) key) eqn:Hk.
  - eexists. split; [reflexivity|]. simpl. split; [|auto].
    apply Hadd. rewrite In_remove_key. tauto.
  - apply contains_false in Hk.
    destruct (Z.geb_spec (Z.of_nat (List.length (_cache c))) (max_size c)).
    + destruct (_cache c) as [|x rest] eqn:Hc; [simpl in *; lia|].
      eexists. split; [reflexivity|]. simpl. split; [|auto].
      apply Hadd. simpl in Hk. tauto.
    + eexists. split; [reflexivity|]. simpl. split; [|auto]. now apply Hadd.
Qed.
End Cache_store.

(** ** The order of the entries is the order of their last access *)
Section Recency.
Context {V : Type}.
Implicit Types (c : Cache V) (last : string -> option nat) (l : list string).

Lemma sorted_remove (R : string -> string -> Prop) k l :
  StronglySorted R l -> StronglySorted R (List.remove string_dec k l).
Proof.
  induction 1 as [|x l Hs IH Hx]; simpl; [constructor|].
  destruct (string_dec k x); [exact IH|].
  constructor; [exact IH|].
  rewrite Forall_forall in *. intros y Hy. apply Hx.
  now apply in_remove in Hy.
Qed.

Lemma sorted_snoc (R : string -> string -> Prop) k l :
  StronglySorted R l -> Forall (fun x => R x k) l ->
  StronglySorted R (l ++ [k]).
Proof.
  induction 1 as [|x l Hs IH Hx]; simpl; intros Hk.
  - repeat constructor.
  - inversion Hk; subst. constructor; [auto|].
    apply Forall_app. split; [exact Hx|]. now repeat constructor.
Qed.

Lemma sorted_ext last last' l :
  (forall k, In k l -> last' k = last k) ->
  StronglySorted (older last) l -> StronglySorted (older last') l.
Proof.
  intros Heq Hs. induction Hs as [|x l Hs IH Hx]; [constructor|].
  constructor.
  - apply IH. intros k Hk. apply Heq. now right.
  - rewrite Forall_forall in *. intros y Hy. specialize (Hx y Hy).
    unfold older in *. rewrite (Heq x), (Heq y); simpl; auto.
Qed.

(** a name goes to the tail with the stamp [i], the others keep theirs *)
Lemma recency_touch last last' i key l0 :
  NoDup l0 -> ~ In key l0 ->
  StronglySorted (older last) l0 ->
  (forall k, In k l0 -> last k <> None) ->
  (forall k n, last k = Some n -> (n < i)%nat) ->
  last' key = Some i ->
  (forall k, k <> key -> last' k = last k) ->
  NoDup (l0 ++ [key])
  /\ StronglySorted (older last') (l0 ++ [key])
  /\ (forall k, In k (l0 ++ [key]) -> last' k <> None)
  /\ (forall k n, last' k = Some n -> (n < S i)%nat).
Proof.
  intros Hnd Hnot Hs Hsome Hlt Hkey Hother.
  assert (Hsame : forall k, In k l0 -> last' k = last k).
  { intros k Hk. apply Hother. intros ->. contradiction. }
  split; [|split; [|split]].
  - apply NoDup_app; [exact Hnd|repeat constructor; simpl; tauto|].
    intros a Ha [<-|[]]. contradiction.
  - apply sorted_snoc; [now apply (sorted_ext last)|].
    apply Forall_forall. intros x Hx. unfold older.
    rewrite Hkey, (Hsame x Hx).
    destruct (last x) as [n|] eqn:E; [eauto|]. now apply (Hsome x Hx).
  - intros k Hk. apply in_app_or in Hk as [Hk|[<-|[]]].
    + rewrite (Hsame k Hk). auto.
    + rewrite Hkey. discriminate.
  - intros k n Hk. destruct (string_dec k key) as [->|Hne].
    + rewrite Hkey in Hk. injection Hk as <-. lia.
    + rewrite (Hother k Hne) in Hk. apply Hlt in Hk. lia.
Qed.

Lemma recency_step c last i o :
  recency_inv c last i ->
  recency_inv (step c o)
              (fun k => if accesses c o k then Some i else last k) (S i).
Proof.
  intros (Hnd & Hs & Hsome & Hlt).
  assert (Hkeep : forall l0 (last' : string -> option nat),
             incl l0 (keys (_cache c)) -> NoDup l0 ->
             StronglySorted (older last) l0 ->
             (forall k, In k l0 -> last' k = last k) ->
             (forall k n, last' k = Some n -> (n < S i)%nat) ->
             NoDup l0 /\ StronglySorted (older last') l0
             /\ (forall k, In k l0 -> last' k <> None)
             /\ (forall k n, last' k = Some n -> (n < S i)%nat)).
  { intros l0 last' Hincl Hnd0 Hs0 Heq Hlt'. repeat split; auto.
    - now apply (sorted_ext last).
    - intros k Hk. rewrite (Heq k Hk). apply Hsome. now apply Hincl. }
  assert (Hrm : forall k, NoDup (List.remove string_dec k (keys (_cache c)))).
  { intros k. rewrite <- keys_remove_key. now apply NoDup_remove_key. }
  assert (Hstamp : forall (b : string -> bool) k n,
             (if b k then Some i else last k) = Some n -> (n < S i)%nat).
  { intros b k n. destruct (b k); [intros [= <-]; lia|].
    intros H. apply Hlt in H. lia. }
  unfold recency_inv. destruct o as [key now|key v ttl now]; simpl.
  - unfold get, move_to_end.
    destruct (lookup (_cache c) key) as [e|] eqn:Hl.
    + destruct (is_expired e now) eqn:He; simpl.
      * rewrite keys_remove_key.
        apply Hkeep; auto using sorted_remove.
        -- intros x Hx. now apply in_remove in Hx.
        -- intros k _. now rewrite andb_false_r.
        -- intros k n. rewrite andb_false_r. apply (Hstamp (fun _ => false)).
      * rewrite keys_app, keys_remove_key. simpl.
        apply (recency_touch last _ i key); auto using sorted_remove.
        -- apply remove_In.
        -- intros k Hk. apply Hsome. now apply in_remove in Hk.
        -- now rewrite String.eqb_refl.
        -- intros k Hne. destruct (String.eqb_spec key k); [congruence|reflexivity].
    + simpl. apply Hkeep; auto using incl_refl.
      * intros k _. now rewrite andb_false_r.
      * intros k n. rewrite andb_false_r. apply (Hstamp (fun _ => false)).
  - unfold set. destruct (contains (_cache c) key) eqn:Hk.
    + simpl. rewrite keys_app, keys_remove_key. simpl.
      apply (recency_touch last _ i key); auto using sorted_remove.
      * apply remove_In.
      * intros k Hin. apply Hsome. now apply in_remove in Hin.
      * now rewrite String.eqb_refl.
      * intros k Hne. destruct (String.eqb_spec key k); [congruence|reflexivity].
    + apply contains_false in Hk.
      destruct (Z.of_nat (List.length (_cache c)) >=? max_size c).
      * destruct (_cache c) as [|x rest] eqn:Hc; simpl.
        -- rewrite Hc. simpl.
           split; [constructor|]. split; [constructor|].
           split; [intros k []|].
           intros k n. apply (Hstamp (fun k => String.eqb key k)).
        -- rewrite keys_app. simpl. simpl in Hnd, Hs, Hk, Hsome.
           inversion Hnd; subst. apply StronglySorted_inv in Hs as [Hs _].
           apply (recency_touch last _ i key); auto.
           ++ now rewrite String.eqb_refl.
           ++ intros k Hne.
              destruct (String.eqb_spec key k); [congruence|reflexivity].
      * simpl. rewrite keys_app. simpl.
        apply (recency_touch last _ i key); auto.
        -- now rewrite String.eqb_refl.
        -- intros k Hne. destruct (String.eqb_spec key k); [congruence|reflexivity].
Qed.

Lemma recency_run ops : forall c last i,
  recency_inv c last i ->
  recency_inv (run c ops) (last_access c ops i last) (i + List.length ops).
Proof.
  induction ops as [|o ops IH]; intros c last i Hinv; simpl.
  - now rewrite Nat.add_0_r.
  - replace (i + S (List.length ops))%nat with (S i + List.length ops)%nat by lia.
    apply IH. now apply recency_step.
Qed.

(** Whatever the operations made on a new cache, its entries are in the
    order of their last access ([set], or [get] that hit): the head is the
    entry accessed least recently. *)
Lemma keys_in_order_of_last_access (max_size0 default_ttl0 : Z) (ops : list (op V)) :
  let c := run (Cache_init max_size0 default_ttl0) ops in
  let last := last_access (Cache_init max_size0 default_ttl0) ops 0
                          (fun _ => None) in
  NoDup (keys (_cache c))
  /\ StronglySorted (older last) (keys (_cache c))
  /\ (forall k, In k (keys (_cache c)) -> last k <> None).
Proof.
  destruct (recency_run ops (Cache_init max_size0 default_ttl0) (fun _ => None) 0)
    as (H1 & H2 & H3 & _); [|auto].
  unfold recency_inv. simpl.
  split; [constructor|]. split; [constructor|].
  split; [intros k []|]. discriminate.
Qed.
End Recency.

Section Cache_claims.
Context {V : Type}.
Implicit Types (c : Cache V) (e : CacheEntry V) (k key : string).

(** C6, as amended.  In a cache that holds exactly [max_size >= 1] entries,
    [set] of a name that is not cached drops exactly the entry at the head
    of the order (the one accessed least recently, see
    [keys_in_order_of_last_access]), keeps the others in order with the new
    name last, and leaves the size at [max_size].  A
    [get] that hits a name before that [set] moves it to the tail, and
    protects it from the eviction provided the cache holds at least two
    entries: the entry dropped is then the oldest of the others. *)
Theorem set_evicts_least_recently_used c key (v : V) ttl now :
  NoDup (keys (_cache c)) ->
  0 < max_size c ->
  Z.of_nat (List.length (_cache c)) = max_size c ->
  contains (_cache c) key = false ->
  exists lru rest c',
    _cache c = lru :: rest
    /\ set c key v ttl now = Ok c'
    /\ keys (_cache c') = (keys rest ++ [key])%list
    /\ contains (_cache c') (fst lru) = false
    /\ Z.of_nat (List.length (_cache c')) = max_size c'
    /\ (forall k e t,
           2 <= max_size c ->
           lookup (_cache c) k = Some e -> is_expired e t = false ->
           exists c1 c2,
             get c k t = (c1, Some (value e))
             /\ keys (_cache c1)
                = (List.remove string_dec k (keys (_cache c)) ++ [k])%list
             /\ set c1 key v ttl now = Ok c2
             /\ keys (_cache c2) = (tl (keys (_cache c1)) ++ [key])%list
             /\ contains (_cache c2) k = true
             /\ Z.of_nat (List.length (_cache c2)) = max_size c2).
Proof.
  intros Hnd Hpos Hlen Hkey.
  assert (Hex : exists lru rest, _cache c = lru :: rest).
  { destruct (_cache c); [simpl in Hlen; lia|eauto]. }
  destruct Hex as (lru & rest & Hc).
  assert (Hfull : max_size c <= Z.of_nat (List.length (_cache c))) by lia.
  exists lru, rest. eexists. split; [exact Hc|].
  split; [exact (set_full c key v ttl now lru rest Hc Hkey Hfull)|].
  cbn [_cache with_cache max_size]. rewrite keys_app, length_app.
  split; [reflexivity|]. split.
  { apply contains_false. rewrite keys_app. simpl. intros Hin.
    rewrite Hc in Hnd. simpl in Hnd. inversion Hnd; subst.
    apply in_app_or in Hin as [Hin|[Hin|[]]]; [contradiction|].
    apply contains_false in Hkey. apply Hkey. rewrite Hc. left.
    symmetry. exact Hin. }
  split; [rewrite Hc in Hlen; simpl in *; lia|].
  intros k e t Htwo Hl He.
  pose proof (lookup_contains _ _ _ Hl) as Hin. apply contains_In in Hin.
  assert (Hne : key <> k).
  { intros ->. apply contains_false in Hkey. contradiction. }
  pose proof (length_remove_key _ _ Hnd Hin) as Hrm.
  assert (Hk1 : contains (remove_key (_cache c) k ++ [(k, e)])%list key = false).
  { apply contains_false. rewrite keys_app. simpl. intros Hin'.
    apply in_app_or in Hin' as [Hin'|[Hin'|[]]]; [|congruence].
    rewrite In_remove_key in Hin'. apply contains_false in Hkey. tauto. }
  pose proof (keys_remove_key (_cache c) k) as Hkeys.
  destruct (remove_key (_cache c) k) as [|y others] eqn:Ho.
  { simpl in Hrm. lia. }
  set (c1 := count_hit (with_cache c ((y :: others) ++ [(k, e)])%list)).
  exists c1. eexists.
  split; [rewrite (get_hit c k e t Hl He), Ho; reflexivity|].
  split; [unfold c1; cbn [_cache count_hit with_cache];
          rewrite keys_app, Hkeys; reflexivity|].
  split.
  { apply (set_full c1 key v ttl now y (others ++ [(k, e)])%list);
      [reflexivity|exact Hk1|].
    simpl. rewrite length_app. simpl in *. lia. }
  simpl. rewrite !keys_app, !length_app. simpl.
  split; [reflexivity|]. split.
  - apply contains_In. rewrite !keys_app. simpl.
    apply in_or_app. left. apply in_or_app. right. now left.
  - simpl in *. lia.
Qed.

End Cache_claims.

(** C6, the claim as stated fails with [max_size = 1]: the only entry is
    read, hence the most recently used, and the next [set] of a new name
    still evicts it. *)
Lemma get_does_not_protect_single_entry :
  exists c1 c2 c3,
    set (Cache_init 1 60) "key1" (PStr "value1") None 0 = Ok c1
    /\ Z.of_nat (List.length (_cache c1)) = max_size c1
    /\ get c1 "key1" 1 = (c2, Some (PStr "value1"))
    /\ set c2 "key2" (PStr "value2") None 2 = Ok c3
    /\ contains (_cache c3) "key1" = false.
Proof. do 3 eexists. repeat split. Qed.

(** The scenario of [test_cache_lru_ordering]: three names, the first is
    read, the fourth [set] evicts the second. *)
Example lru_ordering :
  exists c1 c2 c3 c4 c5,
    set (Cache_init 3 60) "key1" (PStr "value1") None 0 = Ok c1
    /\ set c1 "key2" (PStr "value2") None 1 = Ok c2
    /\ set c2 "key3" (PStr "value3") None 2 = Ok c3
    /\ get c3 "key1" 3 = (c4, Some (PStr "value1"))
    /\ set c4 "key4" (PStr "value4") None 4 = Ok c5
    /\ keys (_cache c5) = ["key3"; "key1"; "key4"].
Proof. do 5 eexists. repeat split. Qed.

(** C2.  [Cache(max_size=10, default_ttl=60)], [set("key1", "value1", ttl=0)]
    at time 0, [get("key1")] a tenth of a second later: [ttl or
    self.default_ttl] replaces the TTL 0 by the default 60, the entry expires
    at time 60, and the [get] returns the value and counts a hit. *)
Theorem set_ttl_zero_takes_default_ttl :
  exists c1 c2 e,
    set (Cache_init 10 60) "key1" (PStr "value1") (Some 0) 0 = Ok c1
    /\ lookup (_cache c1) "key1" = Some e
    /\ Qred (expiry e) = 60%Q
    /\ get c1 "key1" (1 # 10) = (c2, Some (PStr "value1"))
    /\ _hits c2 = 1 /\ _misses c2 = 0.
Proof. do 3 eexists. repeat split. Qed.

(** with a TTL that has elapsed, the entry is deleted and a miss counted *)
Lemma get_after_expiry {V : Type} (c : Cache V) key (v : V) ttl now later c' :
  set c key v (Some ttl) now = Ok c' -> ttl <> 0 ->
  (now + inject_Z ttl < later)%Q ->
  snd (get c' key later) = None
  /\ _misses (fst (get c' key later)) = _misses c + 1
  /\ contains (_cache (fst (get c' key later))) key = false.
Proof.
  intros Hset Httl Hlate.
  assert (Hl : exists d, ~ In key (keys d)
                 /\ _cache c' = (d ++ [(key, CacheEntry_init v ttl now)])%list
                 /\ _misses c' = _misses c).
  { unfold set in Hset. simpl in Hset.
    destruct (Z.eqb_spec ttl 0); [contradiction|].
    destruct (contains (_cache c) key) eqn:Hk.
    - injection Hset as <-. eexists. split; [|split; reflexivity].
      rewrite In_remove_key. tauto.
    - apply contains_false in Hk.
      destruct (Z.of_nat (List.length (_cache c)) >=? max_size c).
      + destruct (_cache c) as [|x rest] eqn:Hc; [discriminate|].
        injection Hset as <-. eexists. split; [|split; reflexivity].
        simpl in Hk. tauto.
      + injection Hset as <-. eexists. split; [|split; reflexivity]. exact Hk. }
  destruct Hl as (d & Hd & Hc' & Hm).
  assert (Hlk : lookup (_cache c') key = Some (CacheEntry_init v ttl now)).
  { rewrite Hc', lookup_app_absent by exact Hd. apply lookup_singleton. }
  rewrite (get_expired c' key _ later Hlk) by (apply is_expired_true; exact Hlate).
  simpl. repeat split; [lia|].
  apply contains_false. rewrite In_remove_key. tauto.
Qed.

(** ** Floats: how far rounding goes *)

Lemma round_half_even_near n d :
  0 < d -> 2 * Z.abs (round_half_even n d * d - n) <= d.
Proof.
  intros Hd. unfold round_half_even.
  pose proof (Z.div_mod n d ltac:(lia)) as Hdm.
  pose proof (Z.mod_pos_bound n d Hd) as Hr.
  set (q := n / d) in *. set (r := n mod d) in *.
  destruct (Z.ltb_spec (2 * r) d); [lia|].
  destruct (Z.ltb_spec d (2 * r)); [lia|].
  destruct (Z.even q); lia.
Qed.

Lemma log2_ratio_spec n d :
  0 < n -> 0 < d -> pow2_le (log2_ratio n d) d n = true.
Proof.
  intros Hn Hd. unfold log2_ratio.
  destruct (pow2_le (Z.log2 n - Z.log2 d) d n) eqn:E; [exact E|].
  pose proof (Z.log2_spec n Hn) as [Ha _].
  pose proof (Z.log2_spec d Hd) as [_ Hb].
  pose proof (Z.log2_nonneg n) as Ha0.
  pose proof (Z.log2_nonneg d) as Hb0.
  set (a := Z.log2 n) in *. set (b := Z.log2 d) in *.
  unfold pow2_le.
  destruct (Z.leb_spec 0 (a - b - 1)) as [H|H].
  - apply Z.leb_le.
    assert (Hp : 2 ^ a = 2 ^ (Z.succ b) * 2 ^ (a - b - 1)).
    { rewrite <- Z.pow_add_r by lia. f_equal. lia. }
    assert (0 < 2 ^ (a - b - 1)) by (apply Z.pow_pos_nonneg; lia).
    nia.
  - apply Z.leb_le.
    assert (Hp : 2 ^ (Z.succ b) = 2 ^ a * 2 ^ (- (a - b - 1))).
    { rewrite <- Z.pow_add_r by lia. f_equal. lia. }
    assert (0 < 2 ^ (- (a - b - 1))) by (apply Z.pow_pos_nonneg; lia).
    nia.
Qed.

Lemma log2_ratio_lt n d k :
  0 < n -> 0 < d -> 0 <= k -> n < d * 2 ^ k -> log2_ratio n d < k.
Proof.
  intros Hn Hd Hk Hlt.
  pose proof (log2_ratio_spec n d Hn Hd) as Hs.
  destruct (Z.lt_ge_cases (log2_ratio n d) k) as [|Hge]; [assumption|exfalso].
  unfold pow2_le in Hs.
  destruct (Z.leb_spec 0 (log2_ratio n d)); [|lia].
  apply Z.leb_le in Hs.
  assert (2 ^ k <= 2 ^ log2_ratio n d) by (apply Z.pow_le_mono_r; lia).
  nia.
Qed.

Lemma Qpower_2_neg (K : Z) (p : positive) :
  2 ^ K = Zpos p -> 0 <= K -> forall m, (inject_Z m * 2 ^ (- K) == m # p)%Q.
Proof.
  intros HP HK m.
  rewrite Qpower_opp.
  change 2%Q with (inject_Z 2).
  rewrite <- Zpower_Qpower by exact HK. rewrite HP.
  unfold Qeq, Qinv, Qmult, inject_Z. simpl. lia.
Qed.

Lemma Qabs_diff_bound (m n B : Z) (p d : positive) :
  0 <= B -> B <= 2 * Zpos p ->
  2 * Z.abs (m * Zpos d - n * Zpos p) <= Zpos d ->
  (Qabs ((m # p) - (n # d)) * inject_Z B <= 1)%Q.
Proof.
  intros HB0 HB H.
  unfold Qle, Qabs, Qminus, Qplus, Qopp, Qmult, inject_Z. simpl.
  rewrite Pos2Z.inj_mul.
  replace (m * Zpos d + - n * Zpos p) with (m * Zpos d - n * Zpos p) by lia.
  set (x := Z.abs (m * Zpos d - n * Zpos p)) in *.
  assert (0 <= x) by (subst x; lia).
  nia.
Qed.

Lemma round64_near q k :
  0 <= k <= 52 -> (0 <= q)%Q -> (q < inject_Z (2 ^ k))%Q ->
  exists v, round64 q = Finite v /\ (0 <= v)%Q
            /\ (Qabs (v - q) * inject_Z (2 ^ (54 - k)) <= 1)%Q.
Proof.
  intros Hk Hq0 Hqk. destruct q as [n d].
  unfold Qle in Hq0. unfold Qlt in Hqk. simpl in Hq0, Hqk.
  assert (H2k : 0 < 2 ^ k) by (apply Z.pow_pos_nonneg; lia).
  assert (HB : 0 < 2 ^ (54 - k)) by (apply Z.pow_pos_nonneg; lia).
  unfold round64. cbn [Qnum Qden].
  destruct (Z.eqb_spec (Z.abs n) 0) as [E|E].
  - assert (n = 0) as -> by lia.
    exists 0%Q. split; [reflexivity|]. split; [apply Qle_refl|].
    unfold Qle, Qabs, Qminus, Qplus, Qopp, Qmult, inject_Z. simpl. lia.
  - assert (Hn : 0 < n) by lia.
    rewrite (Z.abs_eq n) by lia.
    assert (He : log2_ratio n (Zpos d) < k) by (apply log2_ratio_lt; lia).
    set (e := log2_ratio n (Zpos d)) in *.
    set (ex := Z.max e (-1022) - 52).
    assert (Hex : ex <= k - 53) by (subst ex; lia).
    destruct (Z.leb_spec 0 ex) as [|_]; [lia|].
    destruct (Z.ltb_spec 971 ex) as [|_]; [lia|].
    destruct (Z.eqb_spec ex 971) as [|_]; [lia|].
    cbn [orb andb].
    rewrite (Z.sgn_pos n Hn), Z.mul_1_l.
    set (m := round_half_even (n * 2 ^ (- ex)) (Zpos d)).
    pose proof (round_half_even_near (n * 2 ^ (- ex)) (Zpos d) ltac:(lia)) as Hm.
    fold m in Hm.
    assert (HP : 0 < 2 ^ (- ex)) by (apply Z.pow_pos_nonneg; lia).
    destruct (2 ^ (- ex)) as [|p|p] eqn:EP; try lia.
    assert (Hv : (Qred (inject_Z m * 2 ^ ex) == m # p)%Q).
    { rewrite Qred_correct.
      replace ex with (- (- ex)) by lia.
      apply Qpower_2_neg; [exact EP|lia]. }
    eexists. split; [reflexivity|].
    assert (Hm0 : 0 <= m) by nia.
    split.
    + rewrite Hv. unfold Qle. simpl. lia.
    + rewrite Hv. apply Qabs_diff_bound; [lia| |].
      * assert (2 ^ (54 - k) <= 2 ^ (- ex + 1)) by (apply Z.pow_le_mono_r; lia).
        rewrite Z.pow_add_r in H by lia. rewrite EP in H. lia.
      * replace (n * Zpos p) with (n * Zpos p) by lia.
        lia.
Qed.

Lemma hundredths_near (x : Q) :
  (0 <= x)%Q ->
  let c := round_half_even (100 * Z.abs (Qnum x)) (Zpos (Qden x)) in
  0 <= c
  /\ format_2f_finite x
     = (Json.of_int (c / 100) ++ "." ++ two_digits (c mod 100))%string
  /\ (Qabs (inject_Z c / 100 - x) <= 1 # 200)%Q.
Proof.
  intros Hx c. destruct x as [n d]. unfold Qle in Hx. simpl in Hx.
  assert (Hn : 0 <= n) by lia.
  subst c. cbn [Qnum Qden]. rewrite (Z.abs_eq n Hn).
  pose proof (round_half_even_near (100 * n) (Zpos d) ltac:(lia)) as Hc.
  set (c := round_half_even (100 * n) (Zpos d)) in *.
  assert (Hc0 : 0 <= c) by nia.
  split; [exact Hc0|]. split.
  - unfold format_2f_finite. cbn [Qnum Qden]. rewrite (Z.abs_eq n Hn). fold c.
    destruct (Z.ltb_spec n 0); [lia|]. reflexivity.
  - assert (E : (inject_Z c / 100 == c # 100)%Q).
    { unfold Qeq, Qdiv, Qmult, Qinv, inject_Z. simpl. lia. }
    rewrite E.
    unfold Qle, Qabs, Qminus, Qplus, Qopp. cbn [Qnum Qden].
    rewrite Pos2Z.inj_mul. clearbody c.
    replace (c * Z.pos d + - n * 100) with (c * Z.pos d - 100 * n) by lia.
    set (x := Z.abs (c * Z.pos d - 100 * n)) in *. lia.
Qed.

Lemma int_truediv_near (h t : Z) :
  0 <= h -> h <= t -> 0 < t ->
  exists r, int_truediv h t = Ok (Finite r) /\ (0 <= r)%Q
            /\ (Qabs (r - inject_Z h / inject_Z t) * inject_Z (2 ^ 53) <= 1)%Q.
Proof.
  intros Hh Hht Ht. unfold int_truediv.
  destruct (Z.eqb_spec t 0); [lia|].
  destruct (round64_near (inject_Z h / inject_Z t) 1) as (v & Hv & Hv0 & Hb).
  - lia.
  - apply Qle_shift_div_l; [unfold Qlt; simpl; lia|].
    rewrite Qmult_0_l. unfold Qle; simpl; lia.
  - apply Qlt_shift_div_r; [unfold Qlt; simpl; lia|].
    change (2 ^ 1) with 2.
    unfold Qlt, Qmult, inject_Z; cbn [Qnum Qden]; lia.
  - rewrite Hv. exists v. auto.
Qed.

(** the counters are counts: whatever is done with a cache, [_hits] and
    [_misses] are not negative *)
Lemma counters_are_counts {V : Type} (ops : list (op V)) :
  forall c : Cache V,
    0 <= _hits c -> 0 <= _misses c ->
    0 <= _hits (run c ops) /\ 0 <= _misses (run c ops).
Proof.
  induction ops as [|o ops IH]; intros c Hh Hm; [simpl; auto|].
  simpl. apply IH.
  - destruct o as [key now|key v ttl now]; simpl.
    + unfold get. destruct (lookup (_cache c) key) as [entry|]; [|simpl; lia].
      destruct (is_expired entry now); simpl; lia.
    + unfold set. destruct (contains (_cache c) key); [simpl; lia|].
      destruct (_ >=? _); [|simpl; lia].
      destruct (_cache c); simpl; lia.
  - destruct o as [key now|key v ttl now]; simpl.
    + unfold get. destruct (lookup (_cache c) key) as [entry|]; [|simpl; lia].
      destruct (is_expired entry now); simpl; lia.
    + unfold set. destruct (contains (_cache c) key); [simpl; lia|].
      destruct (_ >=? _); [|simpl; lia].
      destruct (_cache c); simpl; lia.
Qed.

(** C9, the claim as stated fails: after one hit and one miss the rate
    computed is the float 50.0, reported as the string ["50.00%"], not the
    ratio 1/2. *)
Lemma hit_rate_is_not_the_ratio :
  let c : Cache pyval :=
    {| max_size := 10; default_ttl := 60; _cache := []; _hits := 1; _misses := 1 |} in
  exists d,
    stats c = Ok d
    /\ lookup d "hit_rate" = Some (PStr "50.00%")
    /\ hit_rate c = Ok (Finite 50)
    /\ ~ (50 == inject_Z (_hits c) / inject_Z (_hits c + _misses c))%Q.
Proof.
  eexists. split; [reflexivity|]. split; [reflexivity|].
  split; [reflexivity|]. vm_compute. discriminate.
Qed.

(** the quotient and the product are rounded: after 23 hits and 137 misses
    the rate is a float just below 14.375 and ["14.37%"] is reported, where
    the exact percentage would give ["14.38%"] *)
Lemma hit_rate_is_rounded :
  let c : Cache pyval :=
    {| max_size := 10; default_ttl := 60; _cache := []; _hits := 23;
       _misses := 137 |} in
  hit_rate c = Ok (Finite (8092405580431359 # 562949953421312))
  /\ (exists d, stats c = Ok d
                /\ lookup d "hit_rate" = Some (PStr "14.37%"))
  /\ format_2f_finite (100 * (23 / 160)) = "14.38".
Proof.
  split; [vm_compute; reflexivity|].
  split; [eexists; split; vm_compute; reflexivity|].
  vm_compute. reflexivity.
Qed.

(** C9, as amended.  The counters being counts (as they are in every cache
    the operations build, [counters_are_counts]), [stats()] returns, and
    reports under ["hit_rate"] a string: a number with two decimals and a
    percent sign.  The number printed is the float [hit_rate] rounded to
    hundredths, and [hit_rate] is the percentage
    [hits / (hits + misses) * 100] computed in floating point, within
    [2 ^ -45] of the exact percentage.  Without lookups [hit_rate] is 0,
    reported as ["0.00%"]. *)
Theorem stats_hit_rate_percentage {V : Type} (c : Cache V) :
  0 <= _hits c -> 0 <= _misses c ->
  exists (rate : Q) (hundredths : Z) (d : dict),
    hit_rate c = Ok (Finite rate)
    /\ stats c = Ok d
    /\ lookup d "hit_rate"
       = Some (PStr (Json.of_int (hundredths / 100) ++ "."
                       ++ two_digits (hundredths mod 100) ++ "%"))
    /\ 0 <= hundredths
    /\ (Qabs (inject_Z hundredths / 100 - rate) <= 1 # 200)%Q
    /\ (0 < _hits c + _misses c ->
        (Qabs (rate - 100 * (inject_Z (_hits c)
                             / inject_Z (_hits c + _misses c)))
         <= 1 # 2 ^ 45)%Q)
    /\ (_hits c + _misses c = 0 ->
        rate = 0%Q /\ lookup d "hit_rate" = Some (PStr "0.00%")).
Proof.
  intros Hh Hm.
  assert (Hrate : exists rate,
             hit_rate c = Ok (Finite rate) /\ (0 <= rate)%Q
             /\ (0 < _hits c + _misses c ->
                 (Qabs (rate - 100 * (inject_Z (_hits c)
                                      / inject_Z (_hits c + _misses c)))
                  <= 1 # 2 ^ 45)%Q)
             /\ (_hits c + _misses c = 0 -> rate = 0%Q)).
  { unfold hit_rate.
    destruct (Z.gtb_spec (_hits c + _misses c) 0) as [Hpos|Hz].
    - destruct (int_truediv_near (_hits c) (_hits c + _misses c))
        as (r & Hr & Hr0 & Hrb); [lia..|].
      rewrite Hr. cbn [fmul].
      set (x := (inject_Z (_hits c) / inject_Z (_hits c + _misses c))%Q) in *.
      assert (Hx : (0 <= x /\ x <= 1)%Q).
      { subst x. split.
        - apply Qle_shift_div_l; [unfold Qlt; simpl; lia|].
          rewrite Qmult_0_l. unfold Qle; simpl; lia.
        - apply Qle_shift_div_r; [unfold Qlt; simpl; lia|].
          unfold Qle, Qmult, inject_Z; cbn [Qnum Qden]; lia. }
      assert (Hr1 : (Qabs (r - x) <= 1 # 9007199254740992)%Q).
      { apply Qmult_le_r with (z := inject_Z (2 ^ 53)); [reflexivity|].
        eapply Qle_trans; [exact Hrb|]. unfold Qle; simpl; lia. }
      apply Qabs_Qle_condition in Hr1 as [Hr1 Hr2].
      destruct (round64_near (r * 100) 7) as (v & Hv & Hv0 & Hvb).
      + lia.
      + apply Qmult_le_0_compat; [exact Hr0|discriminate].
      + change (inject_Z (2 ^ 7)) with 128%Q. lra.
      + exists v. split; [now rewrite Hv|]. split; [exact Hv0|].
        split; [|lia]. intros _.
        assert (Hv1 : (Qabs (v - r * 100) <= 1 # 140737488355328)%Q).
        { apply Qmult_le_r with (z := inject_Z (2 ^ (54 - 7))); [reflexivity|].
          eapply Qle_trans; [exact Hvb|]. unfold Qle; simpl; lia. }
        apply Qabs_Qle_condition in Hv1 as [Hv1 Hv2].
        apply Qabs_Qle_condition.
        change (2 ^ 45)%positive with 35184372088832%positive.
        split; lra.
    - exists 0%Q. split; [reflexivity|]. split; [apply Qle_refl|].
      split; [lia|reflexivity]. }
  destruct Hrate as (rate & Hr & Hr0 & Hacc & Hzero).
  destruct (hundredths_near rate Hr0) as (Hc0 & Hfmt & Hnear).
  set (hundredths := round_half_even (100 * Z.abs (Qnum rate)) (Zpos (Qden rate))) in *.
  eexists rate, hundredths, _.
  split; [exact Hr|]. split; [unfold stats; rewrite Hr; reflexivity|].
  split.
  { cbn [lookup]. simpl. cbn [format_2f]. rewrite Hfmt.
    rewrite !append_assoc. reflexivity. }
  split; [exact Hc0|]. split; [exact Hnear|]. split; [exact Hacc|].
  intros Hz. split; [now apply Hzero|].
  rewrite (Hzero Hz). reflexivity.
Qed.

(** ** The rate limiter *)

Lemma in_window_true now period t :
  in_window now period t = true <-> (now - t < inject_Z period)%Q.
Proof. apply Qgtb_true. Qed.

Lemma sleep_nonneg d w :
  (0 <= d)%Q ->
  sleep d w = (Ok tt, {| clock := (clock w + d)%Q; requests := requests w;
                         sleeps := (sleeps w ++ [d])%list |}).
Proof.
  intros Hd. unfold sleep.
  destruct (Qgtb 0 d) eqn:E; [|reflexivity].
  apply Qgtb_true in E. exfalso. apply (Qlt_not_le _ _ E Hd).
Qed.

Lemma wait_if_needed_returns rl w :
  0 < max_calls rl -> 0 < period rl ->
  exists rl' w',
    wait_if_needed rl w = (Ok tt, rl', w')
    /\ max_calls rl' = max_calls rl /\ period rl' = period rl
    /\ window_ok rl' w'
    /\ last (calls rl') 0%Q = clock w'.
Proof.
  intros Hm Hp. unfold wait_if_needed, window_ok.
  set (kept := filter (in_window (clock w) (period rl)) (calls rl)).
  assert (Hp' : (inject_Z 0 < inject_Z (period rl))%Q) by (now rewrite <- Zlt_Qlt).
  change (inject_Z 0) with 0%Q in Hp'.
  assert (Hkept : Forall (fun t => (clock w - inject_Z (period rl) < t)%Q) kept).
  { apply Forall_forall. intros t Ht. apply filter_In in Ht as [_ Ht].
    apply in_window_true in Ht. lra. }
  cbn [calls with_calls max_calls period].
  destruct (Z.geb_spec (Z.of_nat (List.length kept)) (max_calls rl)) as [Hge|Hlt].
  - destruct kept as [|oldest kept'] eqn:Ek; [simpl in Hge; lia|].
    assert (Ho : (clock w - oldest < inject_Z (period rl))%Q).
    { assert (In oldest (filter (in_window (clock w) (period rl)) (calls rl)))
        by (fold kept; rewrite Ek; now left).
      apply filter_In in H as [_ H]. now apply in_window_true in H. }
    assert (Hs : (0 < inject_Z (period rl) - (clock w - oldest))%Q) by lra.
    rewrite (proj2 (Qgtb_true _ _) Hs).
    rewrite sleep_nonneg by lra.
    do 2 eexists. split; [reflexivity|]. cbn. repeat split; try lia.
    constructor; [lra|constructor].
  - do 2 eexists. split; [reflexivity|].
    cbn [record_call calls with_calls max_calls period].
    rewrite length_app, last_last. cbn [List.length].
    repeat split; try lia.
    apply Forall_app. split; [exact Hkept|]. constructor; [lra|constructor].
Qed.


(** ** Admissions in a trailing window *)














(** ** The dispatch loop *)





Section Client_facts.
Variable urljoin : string -> string -> string.
Variable transport : nat -> string -> dict -> http_outcome.
Variable float_pow : pyfloat -> Z -> result pyfloat.

Implicit Types (cl : DataGovInClient) (w : World) (e : exn).

(** an exception raised before the body is decoded leaves the client as it
    was; the request has been issued *)
Lemma try_block_raised cl resource_id url params use_cache cache_key w e :
  raised_by resource_id (transport (requests w) url params) = Some e ->
  try_block transport cl resource_id url params use_cache cache_key w
  = (Raise e, cl, issued w).
Proof.
  unfold raised_by, try_block, client_get.
  destruct (transport (requests w) url params) as [e0|r]; [now intros [= ->]|].
  destruct (status_code r =? 404); [now intros [= <-]|].
  destruct (status_code r =? 429); [now intros [= <-]|].
  destruct (status_code r >=? 400); [now intros [= <-]|].
  destruct (raise_for_status r); [now intros [= <-]|].
  destruct (json r); [now intros [= <-]|discriminate].
Qed.

(** whatever the [try] block raises, the client is as it was *)
Lemma try_block_raise_inv cl resource_id url params use_cache cache_key w e cl1 w1 :
  try_block transport cl resource_id url params use_cache cache_key w = (Raise e, cl1, w1) ->
  cl1 = cl /\ w1 = issued w.
Proof.
  unfold try_block, client_get.
  destruct (transport (requests w) url params) as [e0|r]; [now intros [= _ <- <-]|].
  destruct (status_code r =? 404); [now intros [= _ <- <-]|].
  destruct (status_code r =? 429); [now intros [= _ <- <-]|].
  destruct (status_code r >=? 400); [now intros [= _ <- <-]|].
  destruct (raise_for_status r); [now intros [= _ <- <-]|].
  destruct (json r); [now intros [= _ <- <-]|].
  destruct (if use_cache then cache cl else None) as [c|]; [|discriminate].
  destruct (set c cache_key p None (clock (issued w))); [discriminate|].
  now intros [= _ <- <-].
Qed.

(** the [try] block issues one request and does nothing else to the world *)
Lemma try_block_world cl resource_id url params use_cache cache_key w :
  snd (try_block transport cl resource_id url params use_cache cache_key w)
  = issued w.
Proof.
  unfold try_block, client_get.
  destruct (transport (requests w) url params) as [e0|r]; [reflexivity|].
  destruct (status_code r =? 404); [reflexivity|].
  destruct (status_code r =? 429); [reflexivity|].
  destruct (status_code r >=? 400); [reflexivity|].
  destruct (raise_for_status r); [reflexivity|].
  destruct (json r); [reflexivity|].
  destruct (if use_cache then cache cl else None) as [c|]; [|reflexivity].
  destruct (set c cache_key p None (clock (issued w))); reflexivity.
Qed.

(** an exception that is re-raised ends the loop at once *)
Lemma dispatch_loop_reraised remaining attempt last cl resource_id url params
      use_cache cache_key w e e' :
  try_block transport cl resource_id url params use_cache cache_key w
  = (Raise e, cl, issued w) ->
  except_clause e = Reraised e' ->
  dispatch_loop transport float_pow (S remaining) attempt last cl resource_id
                url params use_cache cache_key w
  = (Raise e', cl, issued w).
Proof. intros Ht He. simpl. now rewrite Ht, He. Qed.

(** an exception that is recorded: backoff if attempts remain, then the
    next iteration *)
Lemma dispatch_loop_recorded remaining attempt last cl resource_id url params
      use_cache cache_key w e e' :
  try_block transport cl resource_id url params use_cache cache_key w
  = (Raise e, cl, issued w) ->
  except_clause e = Recorded e' ->
  dispatch_loop transport float_pow (S remaining) attempt last cl resource_id
                url params use_cache cache_key w
  = if attempt <? max_retries (config cl) then
      match backoff_delay float_pow (config cl) attempt with
      | Raise e2 => (Raise e2, cl, issued w)
      | Ok sleep_time =>
          match sleep_float sleep_time (issued w) with
          | (Raise e2, w2) => (Raise e2, cl, w2)
          | (Ok _, w2) =>
              dispatch_loop transport float_pow remaining (attempt + 1)
                            (Some e') cl resource_id url params use_cache
                            cache_key w2
          end
      end
    else
      dispatch_loop transport float_pow remaining (attempt + 1) (Some e') cl
                    resource_id url params use_cache cache_key (issued w).
Proof. intros Ht He. simpl. now rewrite Ht, He. Qed.

(** the backoff goes through: the loop sleeps and dispatches again *)
Lemma dispatch_loop_backoff remaining attempt last cl resource_id url params
      use_cache cache_key w e e' d :
  try_block transport cl resource_id url params use_cache cache_key w
  = (Raise e, cl, issued w) ->
  except_clause e = Recorded e' ->
  attempt < max_retries (config cl) ->
  backoff_sleep float_pow (config cl) attempt d ->
  dispatch_loop transport float_pow (S remaining) attempt last cl resource_id
                url params use_cache cache_key w
  = dispatch_loop transport float_pow remaining (attempt + 1) (Some e') cl
      resource_id url params use_cache cache_key
      {| clock := (clock w + d)%Q; requests := S (requests w);
         sleeps := (sleeps w ++ [d])%list |}.
Proof.
  intros Ht He Hlt [Hd Hpos].
  rewrite (dispatch_loop_recorded remaining attempt last cl _ _ _ _ _ w e e' Ht He).
  destruct (Z.ltb_spec attempt (max_retries (config cl))); [|lia].
  rewrite Hd. simpl. rewrite sleep_nonneg by exact Hpos. reflexivity.
Qed.


(** Every attempt raises an exception that is recorded and every backoff
    goes through: the loop runs to its end, one request and (but for the
    last) one backoff sleep per attempt, and raises the exception recorded
    last. *)
Lemma dispatch_loop_exhausted resource_id url params use_cache cache_key
      (recorded : nat -> exn) :
  forall remaining attempt last cl w,
    attempt + Z.of_nat remaining = max_retries (config cl) + 1 ->
    (forall a, attempt <= a < max_retries (config cl) ->
               backoff_passes float_pow (config cl) a) ->
    (forall i, (i < remaining)%nat ->
       exists e, raised_by resource_id
                   (transport (requests w + i) url params) = Some e
                 /\ except_clause e = Recorded (recorded (requests w + i)%nat)) ->
    exists w' ds,
      dispatch_loop transport float_pow remaining attempt last cl resource_id
                    url params use_cache cache_key w
      = (Raise (match remaining with
                | O => match last with
                       | Some e => e
                       | None => NetworkError "All retry attempts failed"
                       end
                | S k => recorded (requests w + k)%nat
                end), cl, w')
      /\ requests w' = (requests w + remaining)%nat
      /\ sleeps w' = (sleeps w ++ ds)%list
      /\ backoff_delays float_pow (config cl) attempt ds
      /\ List.length ds = Nat.pred remaining.
Proof.
  induction remaining as [|n IH]; intros attempt last cl w Hinv Hdelay Hfail.
  - exists w, []. simpl. rewrite Nat.add_0_r, app_nil_r. auto.
  - destruct (Hfail 0%nat) as (e & Hraise & Hexc); [lia|].
    rewrite Nat.add_0_r in Hraise, Hexc.
    assert (Hnext : forall w2, requests w2 = S (requests w) ->
              forall i, (i < n)%nat ->
                exists e0, raised_by resource_id
                             (transport (requests w2 + i) url params) = Some e0
                  /\ except_clause e0 = Recorded (recorded (requests w2 + i)%nat)).
    { intros w2 Hw2 i Hi. rewrite Hw2.
      replace (S (requests w) + i)%nat with (requests w + S i)%nat by lia.
      apply Hfail. lia. }
    destruct (Z.ltb_spec attempt (max_retries (config cl))) as [Hlt|Hge].
    + destruct (Hdelay attempt) as (d & Hsleep & _); [lia|].
      rewrite (dispatch_loop_backoff n attempt last cl _ _ _ _ _ w e _ d
                 (try_block_raised _ _ _ _ _ _ _ _ Hraise) Hexc Hlt Hsleep).
      set (w2 := {| clock := _; requests := _; sleeps := _ |}).
      destruct (IH (attempt + 1) (Some (recorded (requests w))) cl w2)
        as (w' & ds & Hrun & Hreq & Hsl & Hds & Hlen);
        [lia|intros; apply Hdelay; lia|now apply Hnext|].
      exists w', (d :: ds). rewrite Hrun. simpl in Hreq, Hsl.
      destruct n as [|k]; [lia|].
      split; [|split; [|split; [|split]]].
      * replace (requests w2 + k)%nat with (requests w + S k)%nat
          by (subst w2; simpl; lia).
        reflexivity.
      * lia.
      * rewrite Hsl, <- app_assoc. reflexivity.
      * split; [exact Hsleep|exact Hds].
      * simpl in *. lia.
    + assert (n = 0)%nat as -> by lia.
      rewrite (dispatch_loop_recorded 0 attempt last cl _ _ _ _ _ w e _
                 (try_block_raised _ _ _ _ _ _ _ _ Hraise) Hexc).
      destruct (Z.ltb_spec attempt (max_retries (config cl))); [lia|].
      exists (issued w), []. simpl. rewrite Nat.add_0_r, app_nil_r.
      split; [reflexivity|]. split; [lia|]. auto.
Qed.

End Client_facts.

Lemma wait_if_needed_requests rl w :
  requests (snd (wait_if_needed rl w)) = requests w.
Proof.
  unfold wait_if_needed. cbn [calls with_calls max_calls period].
  destruct (_ >=? _); [|reflexivity].
  destruct (filter _ _) as [|oldest l]; [reflexivity|].
  destruct (Qgtb _ 0); [|reflexivity].
  unfold sleep. destruct (Qgtb 0 _); reflexivity.
Qed.

Lemma cache_lookup_frame cl use_cache cache_key w :
  config (fst (cache_lookup cl use_cache cache_key w)) = config cl
  /\ rate_limiter (fst (cache_lookup cl use_cache cache_key w)) = rate_limiter cl.
Proof.
  unfold cache_lookup.
  destruct (if use_cache then cache cl else None) as [c|]; [|auto].
  destruct (get c cache_key (clock w)). auto.
Qed.

Section Client_claims.
Variable urljoin : string -> string -> string.
Variable transport : nat -> string -> dict -> http_outcome.
Variable float_pow : pyfloat -> Z -> result pyfloat.

Implicit Types (cl : DataGovInClient) (w : World) (e : exn).

(** a call that gets to the dispatch loop: the limiter admits it, no
    request has been issued yet *)
Lemma make_request_dispatches cl resource_id params use_cache w key :
  reaches_dispatch cl resource_id params use_cache w key ->
  exists cl2 w1,
    _make_request urljoin transport float_pow cl resource_id params use_cache w
    = dispatch_loop transport float_pow
        (Z.to_nat (max_retries (config cl) + 1)) 0 None
        cl2 resource_id (_build_url urljoin cl resource_id)
        (request_params key params) use_cache
        (_make_key [PStr resource_id] (request_params key params)) w1
    /\ config cl2 = config cl
    /\ cache cl2
       = cache (fst (cache_lookup cl use_cache
                   (_make_key [PStr resource_id] (request_params key params)) w))
    /\ requests w1 = requests w.
Proof.
  intros (Hkey & Hmiss & Hm & Hp & _). unfold _make_request. rewrite Hkey.
  pose proof (cache_lookup_frame cl use_cache
    (_make_key [PStr resource_id] (request_params key params)) w) as [Hcfg Hrl].
  destruct (cache_lookup cl use_cache _ w) as [cl1 cached]. simpl in *. subst cached.
  destruct (wait_if_needed_returns (rate_limiter cl1) w)
    as (rl & w1 & Hrun & _); [now rewrite Hrl|now rewrite Hrl|].
  pose proof (wait_if_needed_requests (rate_limiter cl1) w) as Hreq.
  rewrite Hrun in *. simpl in Hreq.
  exists (with_rate_limiter cl1 rl), w1. unfold _build_url. simpl.
  rewrite Hcfg. auto.
Qed.

(** C5.  A dispatch attempt whose response has status 404, 429 or any
    other status of 400 or more ends the loop at once with the typed error
    of that status ([ResourceNotFoundError], [RateLimitError], [APIError]
    with the status and the body): one request is issued by that attempt,
    none after it, and there is no backoff sleep.  When it is the first
    attempt of a fetch, the fetch has issued exactly one request. *)
Theorem error_status_is_fatal (response : Response) :
  400 <= status_code response ->
  (status_code response = 404 ->
   forall r, status_error r response = ResourceNotFoundError r)
  /\ (status_code response = 429 ->
      forall r, status_error r response = RateLimitError)
  /\ (status_code response <> 404 -> status_code response <> 429 ->
      forall r, status_error r response
                = APIError (status_code response) (text response))
  /\ (forall remaining attempt last cl resource_id url params use_cache
             cache_key w,
         transport (requests w) url params = Returns response ->
         dispatch_loop transport float_pow (S remaining) attempt last cl
                       resource_id url params use_cache cache_key w
         = (Raise (status_error resource_id response), cl, issued w))
  /\ (forall cl resource_id params use_cache w key,
         reaches_dispatch cl resource_id params use_cache w key ->
         transport (requests w) (_build_url urljoin cl resource_id)
                   (request_params key params) = Returns response ->
         exists cl' w',
           _make_request urljoin transport float_pow cl resource_id params
                         use_cache w
           = (Raise (status_error resource_id response), cl', w')
           /\ requests w' = S (requests w)).
Proof.
  intros Hst.
  assert (Hloop : forall remaining attempt last cl resource_id url params
                         use_cache cache_key w,
    transport (requests w) url params = Returns response ->
    dispatch_loop transport float_pow (S remaining) attempt last cl resource_id
                  url params use_cache cache_key w
    = (Raise (status_error resource_id response), cl, issued w)).
  { intros remaining attempt last cl resource_id url params use_cache
           cache_key w Ht.
    apply dispatch_loop_reraised with (e := status_error resource_id response).
    - apply try_block_raised. rewrite Ht. unfold raised_by, status_error.
      destruct (status_code response =? 404); [reflexivity|].
      destruct (status_code response =? 429); [reflexivity|].
      destruct (Z.geb_spec (status_code response) 400); [reflexivity|lia].
    - unfold status_error.
      destruct (status_code response =? 404); [reflexivity|].
      destruct (status_code response =? 429); reflexivity. }
  unfold status_error. repeat split.
  - intros -> r. reflexivity.
  - intros -> r. reflexivity.
  - intros H1 H2 r.
    destruct (Z.eqb_spec (status_code response) 404); [contradiction|].
    destruct (Z.eqb_spec (status_code response) 429); [contradiction|].
    reflexivity.
  - exact Hloop.
  - intros cl resource_id params use_cache w key Hreach Ht.
    destruct (make_request_dispatches _ _ _ _ _ _ Hreach)
      as (cl2 & w1 & -> & Hcfg & _ & Hreq).
    destruct Hreach as (_ & _ & _ & _ & Hretries).
    destruct (Z.to_nat (max_retries (config cl) + 1)) as [|n] eqn:En; [lia|].
    rewrite <- Hreq in Ht. rewrite (Hloop _ _ _ _ _ _ _ _ _ _ Ht).
    do 2 eexists. split; [reflexivity|]. simpl. now rewrite Hreq.
Qed.

(** C4, as amended.  A fetch that gets to the dispatch loop and whose
    transport fails every time with a timeout or a network error issues
    exactly [max_retries + 1] requests (three with [max_retries = 2]) and
    then raises the [NetworkError] recorded for the last of them, provided
    every backoff goes through: for each attempt below [max_retries] the
    delay is computed without [OverflowError] and is a finite float from 0
    to [sleep_limit]. *)
Theorem retries_exhausted_raise_network_error
    cl resource_id params use_cache w key :
  reaches_dispatch cl resource_id params use_cache w key ->
  (forall a, 0 <= a < max_retries (config cl) ->
             backoff_passes float_pow (config cl) a) ->
  (forall i, Z.of_nat i <= max_retries (config cl) ->
             transport_failure
               (transport (requests w + i) (_build_url urljoin cl resource_id)
                          (request_params key params))) ->
  exists cl' w' last message,
    _make_request urljoin transport float_pow cl resource_id params use_cache w
    = (Raise (NetworkError message), cl', w')
    /\ Z.of_nat (requests w') = Z.of_nat (requests w) + max_retries (config cl) + 1
    /\ (max_retries (config cl) = 2 -> requests w' = (requests w + 3)%nat)
    /\ transport (requests w' - 1) (_build_url urljoin cl resource_id)
                 (request_params key params) = Raises last
    /\ except_clause last = Recorded (NetworkError message).
Proof.
  intros Hreach Hback Hfail.
  destruct (make_request_dispatches _ _ _ _ _ _ Hreach)
    as (cl2 & w1 & -> & Hcfg & _ & Hreq).
  destruct Hreach as (_ & _ & _ & _ & Hretries).
  set (url := _build_url urljoin cl resource_id) in *.
  set (ps := request_params key params) in *.
  rewrite <- Hreq in Hfail.
  assert (Hrec : forall i, Z.of_nat i <= max_retries (config cl) -> exists e,
             raised_by resource_id (transport (requests w1 + i) url ps) = Some e
             /\ except_clause e
                = Recorded (recorded_of resource_id
                              (transport (requests w1 + i) url ps))).
  { intros i Hi. destruct (Hfail i Hi) as (m & [H|H]); rewrite H;
      eexists; split; reflexivity. }
  destruct (dispatch_loop_exhausted transport float_pow resource_id url ps
              use_cache (_make_key [PStr resource_id] ps)
              (fun i => recorded_of resource_id (transport i url ps))
              (Z.to_nat (max_retries (config cl) + 1)) 0 None cl2 w1)
    as (w' & ds & Hrun & Hreqs & _).
  { rewrite Hcfg. lia. }
  { intros a Ha. rewrite Hcfg in *. now apply Hback. }
  { intros i Hi. apply Hrec. lia. }
  rewrite Hrun.
  destruct (Z.to_nat (max_retries (config cl) + 1)) as [|k] eqn:Ek; [lia|].
  assert (Hlast : (requests w' - 1 = requests w1 + k)%nat) by lia.
  destruct (Hfail k) as (m & Hm); [lia|].
  exists cl2, w'.
  destruct Hm as [Hm|Hm].
  - exists (HttpxTimeoutException m), ("Request timeout: " ++ m).
    rewrite Hlast. unfold recorded_of. rewrite Hm. simpl.
    repeat split; lia.
  - exists (HttpxNetworkError m), ("Network error: " ++ m).
    rewrite Hlast. unfold recorded_of. rewrite Hm. simpl.
    repeat split; lia.
Qed.


(** C10, as amended.  An exception raised in the [try] block that is
    neither an [httpx] timeout or network error nor one of the typed API
    errors (a body that does not decode as JSON, for one) is recorded as
    [APIError(500, "Unexpected error: ...")]; if attempts remain and the
    backoff goes through, the loop sleeps the backoff delay and dispatches
    again, and when every attempt fails so the [APIError] is raised only
    after [max_retries + 1] requests. *)
Theorem unexpected_error_is_retried cl resource_id url params use_cache cache_key :
  (forall e, unexpected e ->
             except_clause e
             = Recorded (APIError 500 ("Unexpected error: " ++ str e)))
  /\ (forall response m,
         status_code response < 400 -> raise_for_status response = None ->
         json response = inl m ->
         raised_by resource_id (Returns response) = Some (PyException m)
         /\ unexpected (PyException m))
  /\ (forall remaining attempt last w e,
         try_block transport cl resource_id url params use_cache cache_key w
         = (Raise e, cl, issued w) ->
         unexpected e ->
         attempt < max_retries (config cl) ->
         backoff_passes float_pow (config cl) attempt ->
         exists d w2,
           backoff_delay float_pow (config cl) attempt = Ok (Finite d)
           /\ sleep_float (Finite d) (issued w) = (Ok tt, w2)
           /\ dispatch_loop transport float_pow (S remaining) attempt last cl
                            resource_id url params use_cache cache_key w
              = dispatch_loop transport float_pow remaining (attempt + 1)
                  (Some (APIError 500 ("Unexpected error: " ++ str e))) cl
                  resource_id url params use_cache cache_key w2)
  /\ (forall w,
         0 <= max_retries (config cl) ->
         (forall a, 0 <= a < max_retries (config cl) ->
                    backoff_passes float_pow (config cl) a) ->
         (forall i, Z.of_nat i <= max_retries (config cl) ->
                    exists e,
                      raised_by resource_id
                                (transport (requests w + i) url params) = Some e
                      /\ unexpected e) ->
         exists w' e ds,
           dispatch_loop transport float_pow
                         (Z.to_nat (max_retries (config cl) + 1)) 0
                         None cl resource_id url params use_cache cache_key w
           = (Raise (APIError 500 ("Unexpected error: " ++ str e)), cl, w')
           /\ Z.of_nat (requests w')
              = Z.of_nat (requests w) + max_retries (config cl) + 1
           /\ raised_by resource_id (transport (requests w' - 1) url params)
              = Some e
           /\ sleeps w' = (sleeps w ++ ds)%list
           /\ backoff_delays float_pow (config cl) 0 ds
           /\ List.length ds = Z.to_nat (max_retries (config cl))).
Proof.
  assert (Hunexp : forall e, unexpected e ->
            except_clause e
            = Recorded (APIError 500 ("Unexpected error: " ++ str e))).
  { intros e He. destruct e; simpl in He; try contradiction; reflexivity. }
  split; [exact Hunexp|]. split; [|split].
  - intros response m Hst Hrs Hj. split; [|exact I].
    unfold raised_by.
    destruct (Z.eqb_spec (status_code response) 404); [lia|].
    destruct (Z.eqb_spec (status_code response) 429); [lia|].
    destruct (Z.geb_spec (status_code response) 400); [lia|].
    now rewrite Hrs, Hj.
  - intros remaining attempt last w e Ht He Hlt (d & Hsleep & _).
    exists d. eexists. split; [exact (proj1 Hsleep)|].
    split; [simpl; apply sleep_nonneg; exact (proj2 Hsleep)|].
    rewrite (dispatch_loop_backoff transport float_pow remaining attempt last
               cl _ _ _ _ _ w e _ d Ht (Hunexp e He) Hlt Hsleep).
    reflexivity.
  - intros w Hretries Hback Hfail.
    destruct (dispatch_loop_exhausted transport float_pow resource_id url
                params use_cache cache_key
                (fun i => recorded_of resource_id (transport i url params))
                (Z.to_nat (max_retries (config cl) + 1)) 0 None cl w)
      as (w' & ds & Hrun & Hreq & Hsl & Hds & Hlen).
    { lia. }
    { exact Hback. }
    { intros i Hi. destruct (Hfail i) as (e & Hr & He); [lia|].
      exists e. split; [exact Hr|]. unfold recorded_of.
      now rewrite Hr, (Hunexp e He). }
    destruct (Z.to_nat (max_retries (config cl) + 1)) as [|k] eqn:Ek; [lia|].
    destruct (Hfail k) as (e & Hr & He); [lia|].
    exists w', e, ds. rewrite Hrun. unfold recorded_of. rewrite Hr, (Hunexp e He).
    replace (requests w' - 1)%nat with (requests w + k)%nat by lia.
    split; [reflexivity|]. split; [lia|]. split; [exact Hr|].
    split; [exact Hsl|]. split; [exact Hds|]. simpl in Hlen. lia.
Qed.



End Client_claims.

(** ** The scenarios of the test suite *)

Example client_test_is_built (enabled : bool) (retries : Z) :
  0 <= retries ->
  DataGovInClient_init (Config_test enabled retries)
  = Ok (client_test enabled retries).
Proof.
  intros H. unfold DataGovInClient_init, validate. simpl.
  destruct (Z.ltb_spec retries 0); [lia|]. reflexivity.
Qed.

(** cache hit avoids network: [get_resource("R", limit=10)] twice, an hour
    apart at most, one request *)
Example scenario_cache_hit :
  exists cl1 w1 cl2 w2,
    get_resource stub_urljoin (always_returns (response_of 200 "" (inr empty_page)))
                 stub_pow (client_test true 3) "R" None 0 (Some 10) world0
    = (Ok empty_page, cl1, w1)
    /\ get_resource stub_urljoin
                    (always_returns (response_of 200 "" (inr empty_page)))
                    stub_pow cl1 "R" None 0 (Some 10) (advance 3600 w1)
       = (Ok empty_page, cl2, w2)
    /\ requests w2 = 1%nat.
Proof.
  do 4 eexists. split; [vm_compute; reflexivity|].
  split; [vm_compute; reflexivity|]. reflexivity.
Qed.

(** not-found is fatal: one request, no retry *)
Example scenario_not_found :
  exists cl' w',
    get_resource stub_urljoin (always_returns (response_of 404 "" (inl "no body")))
                 stub_pow (client_test false 3) "missing" None 0 None world0
    = (Raise (ResourceNotFoundError "missing"), cl', w')
    /\ requests w' = 1%nat /\ sleeps w' = [].
Proof.
  do 2 eexists. split; [vm_compute; reflexivity|].
  split; reflexivity.
Qed.

(** transient failure recovers: a timeout, then a page; two requests *)
Example scenario_transient_failure :
  exists cl' w',
    get_resource stub_urljoin (times_out_once (response_of 200 "" (inr empty_page)))
                 stub_pow (client_test false 2) "R" None 0 None world0
    = (Ok empty_page, cl', w')
    /\ requests w' = 2%nat /\ sleeps w' = [1%Q].
Proof.
  do 2 eexists. split; [vm_compute; reflexivity|].
  split; reflexivity.
Qed.

(** retry exhaustion: three requests with [max_retries = 2] *)
Example scenario_retry_exhaustion :
  exists cl' w',
    get_resource stub_urljoin always_times_out stub_pow
                 (client_test false 2) "R" None 0 None world0
    = (Raise (NetworkError "Request timeout: Timeout"), cl', w')
    /\ requests w' = 3%nat /\ sleeps w' = [1; 2]%Q.
Proof.
  do 2 eexists. split; [vm_compute; reflexivity|].
  split; reflexivity.
Qed.

(** a cache without room: with [cache_max_size = 0], which
    [Config.validate] lets through, a good response cannot be stored;
    [Cache.set] raises [KeyError], which is recorded and retried: three
    requests with [max_retries = 2], then [APIError] *)
Example scenario_cache_without_room :
  let cl := with_cache_of (client_test true 2) (Some (Cache_init 0 3600)) in
  exists cl' w',
    _make_request stub_urljoin
                  (always_returns (response_of 200 "" (inr empty_page)))
                  stub_pow cl "R" None true world0
    = (Raise (APIError 500 "Unexpected error: 'dictionary is empty'"), cl', w')
    /\ requests w' = 3%nat.
Proof.
  do 2 eexists. split; [vm_compute; reflexivity|]. reflexivity.
Qed.

(** the filters of [get_resource] are sent whole, under ["filters"] *)
Example scenario_filters :
  let filters := [("state", PStr "Goa"); ("year", PInt 2020)] in
  exists cl' w',
    get_resource stub_urljoin echoes_filters stub_pow (client_test false 3)
                 "R" (Some filters) 0 None world0
    = (Ok (PDict filters), cl', w')
    /\ requests w' = 1%nat.
Proof.
  do 2 eexists. split; [vm_compute; reflexivity|]. reflexivity.
Qed.

(** the backoff is computed in floating point: with [retry_delay = 0.1] and
    [backoff_factor = 3.0] the second sleep lasts 0.30000000000000004
    seconds *)
Example scenario_backoff_in_floats :
  let cfg := with_backoff (Config_test false 2) (round64 (1 # 10)) (Finite 3) in
  retry_delay cfg = Finite (3602879701896397 # 36028797018963968)
  /\ backoff_delay stub_pow cfg 0
     = Ok (Finite (3602879701896397 # 36028797018963968))
  /\ backoff_delay stub_pow cfg 1
     = Ok (Finite (1351079888211149 # 4503599627370496))
  /\ format_2f (Finite (1351079888211149 # 4503599627370496)) = "0.30".
Proof.
  split; [vm_compute; reflexivity|]. split; [vm_compute; reflexivity|].
  split; vm_compute; reflexivity.
Qed.

(** a power out of range: with [retry_delay = 1e-200] and
    [backoff_factor = 1e200] the third backoff needs [1e200 ** 2], which
    raises [OverflowError] outside the [try]: the fetch ends with it after
    three requests and two sleeps *)
Example scenario_backoff_overflow :
  let tiny := round64 (1 / inject_Z (10 ^ 200)) in
  let huge := round64 (inject_Z (10 ^ 200)) in
  exists cl cl' w',
    DataGovInClient_init (with_backoff (Config_test false 3) tiny huge) = Ok cl
    /\ _make_request stub_urljoin always_times_out stub_pow cl "R" None true
                     world0
       = (Raise (OverflowError "(34, 'Numerical result out of range')"),
          cl', w')
    /\ requests w' = 3%nat
    /\ List.length (sleeps w') = 2%nat.
Proof.
  do 3 eexists. split; [vm_compute; reflexivity|].
  split; [vm_compute; reflexivity|]. split; reflexivity.
Qed.

(** C4, the claim as stated fails when a backoff does not go through.
    [retry_delay = -1.0] passes [Config.validate]; every request times out;
    after the first one [time.sleep(-1.0)] raises [ValueError] outside the
    [try]: the fetch ends with [ValueError] after one request, where the
    claim has [NetworkError] after [max_retries + 1 = 3] requests. *)
Lemma negative_delay_stops_the_retries :
  let cfg := with_backoff (Config_test false 2) (Finite (-1)) (Finite 2) in
  exists cl cl' w',
    DataGovInClient_init cfg = Ok cl
    /\ (forall i url params, transport_failure (always_times_out i url params))
    /\ _make_request stub_urljoin always_times_out stub_pow cl "R" None true
                     world0
       = (Raise (ValueError "sleep length must be non-negative"), cl', w')
    /\ requests w' = 1%nat
    /\ max_retries (config cl) + 1 = 3.
Proof.
  do 3 eexists. split; [vm_compute; reflexivity|].
  split; [intros i url params; exists "Timeout"; left; reflexivity|].
  split; [vm_compute; reflexivity|]. split; reflexivity.
Qed.


(** C10, the claim as stated fails when a backoff does not go through.
    [retry_delay = -1.0]: the body does not decode, the exception is
    recorded as [APIError(500, ...)], and [time.sleep(-1.0)] raises
    [ValueError]: the fetch ends at once with [ValueError], after one
    request and no sleep, and the [APIError] is never raised. *)
Lemma unexpected_error_is_lost_to_value_error :
  let cfg := with_backoff (Config_test false 3) (Finite (-1)) (Finite 2) in
  let response := response_of 200 "<html>" (inl "Expecting value") in
  exists cl cl' w',
    DataGovInClient_init cfg = Ok cl
    /\ raised_by "R" (Returns response) = Some (PyException "Expecting value")
    /\ unexpected (PyException "Expecting value")
    /\ _make_request stub_urljoin (always_returns response) stub_pow cl "R"
                     None true world0
       = (Raise (ValueError "sleep length must be non-negative"), cl', w')
    /\ requests w' = 1%nat
    /\ sleeps w' = [].
Proof.
  do 3 eexists. split; [vm_compute; reflexivity|].
  split; [reflexivity|]. split; [exact I|].
  split; [vm_compute; reflexivity|]. split; reflexivity.
Qed.


(** ** The theorems at concrete inputs *)

(** the backoff of the test configuration goes through: 1, 2 and 4 seconds *)
Lemma stub_backoff_passes (enabled : bool) (retries a : Z) :
  0 <= a < 3 -> backoff_passes stub_pow (Config_test enabled retries) a.
Proof.
  intros Ha. assert (H : a = 0 \/ a = 1 \/ a = 2) by lia.
  destruct H as [H|[H|H]]; subst a.
  - exists 1%Q. split; [split; [reflexivity|]|];
      unfold Qle, sleep_limit; simpl; lia.
  - exists 2%Q. split; [split; [reflexivity|]|];
      unfold Qle, sleep_limit; simpl; lia.
  - exists 4%Q. split; [split; [reflexivity|]|];
      unfold Qle, sleep_limit; simpl; lia.
Qed.


Lemma make_key_order_independent_witness :
  NoDup (keys [("a", PInt 1); ("b", PInt 2)])
  /\ Permutation [("a", PInt 1); ("b", PInt 2)] [("b", PInt 2); ("a", PInt 1)]
  /\ _make_key [PStr "R"] [("a", PInt 1); ("b", PInt 2)]
     = _make_key [PStr "R"] [("b", PInt 2); ("a", PInt 1)].
Proof.
  assert (Hnd : NoDup (keys [("a", PInt 1); ("b", PInt 2)])).
  { repeat constructor; simpl; intuition discriminate. }
  assert (Hp : Permutation [("a", PInt 1); ("b", PInt 2)]
                           [("b", PInt 2); ("a", PInt 1)]) by apply perm_swap.
  split; [exact Hnd|]. split; [exact Hp|].
  exact (proj1 make_key_order_independent "R" _ _ Hnd Hp).
Defined.

Lemma set_evicts_least_recently_used_witness :
  let entry v := {| value := PStr v; expiry := 60 |} in
  let c := {| max_size := 3; default_ttl := 60;
              _cache := [("key2", entry "value2"); ("key3", entry "value3");
                         ("key1", entry "value1")];
              _hits := 1; _misses := 0 |} in
  exists lru rest c',
    _cache c = lru :: rest
    /\ set c "key4" (PStr "value4") None 4 = Ok c'
    /\ keys (_cache c') = (keys rest ++ ["key4"])%list
    /\ contains (_cache c') (fst lru) = false
    /\ Z.of_nat (List.length (_cache c')) = max_size c'
    /\ (forall k e t,
           2 <= max_size c ->
           lookup (_cache c) k = Some e -> is_expired e t = false ->
           exists c1 c2,
             get c k t = (c1, Some (value e))
             /\ keys (_cache c1)
                = (List.remove string_dec k (keys (_cache c)) ++ [k])%list
             /\ set c1 "key4" (PStr "value4") None 4 = Ok c2
             /\ keys (_cache c2) = (tl (keys (_cache c1)) ++ ["key4"])%list
             /\ contains (_cache c2) k = true
             /\ Z.of_nat (List.length (_cache c2)) = max_size c2).
Proof.
  intros entry c.
  apply (set_evicts_least_recently_used c "key4" (PStr "value4") None 4).
  - repeat constructor; simpl; intuition discriminate.
  - simpl. lia.
  - reflexivity.
  - reflexivity.
Defined.

Lemma stats_hit_rate_percentage_witness :
  let c : Cache pyval :=
    {| max_size := 10; default_ttl := 60; _cache := []; _hits := 1; _misses := 2 |} in
  0 <= _hits c /\ 0 <= _misses c
  /\ exists (rate : Q) (hundredths : Z) (d : dict),
       hit_rate c = Ok (Finite rate)
       /\ stats c = Ok d
       /\ lookup d "hit_rate"
          = Some (PStr (Json.of_int (hundredths / 100) ++ "."
                          ++ two_digits (hundredths mod 100) ++ "%"))
       /\ 0 <= hundredths
       /\ (Qabs (inject_Z hundredths / 100 - rate) <= 1 # 200)%Q
       /\ (0 < _hits c + _misses c ->
           (Qabs (rate - 100 * (inject_Z (_hits c)
                                / inject_Z (_hits c + _misses c)))
            <= 1 # 2 ^ 45)%Q)
       /\ (_hits c + _misses c = 0 ->
           rate = 0%Q /\ lookup d "hit_rate" = Some (PStr "0.00%")).
Proof.
  intros c.
  assert (H1 : 0 <= _hits c) by (simpl; lia).
  assert (H2 : 0 <= _misses c) by (simpl; lia).
  split; [exact H1|]. split; [exact H2|].
  exact (stats_hit_rate_percentage c H1 H2).
Defined.

Lemma error_status_is_fatal_witness :
  let response := response_of 404 "Not Found" (inl "no body") in
  400 <= status_code response
  /\ exists cl' w',
       _make_request stub_urljoin (always_returns response) stub_pow
                     (client_test false 3) "missing" None true world0
       = (Raise (ResourceNotFoundError "missing"), cl', w')
       /\ requests w' = 1%nat.
Proof.
  intros response.
  assert (H : 400 <= status_code response) by (simpl; lia).
  split; [exact H|].
  apply (proj2 (proj2 (proj2 (proj2
           (error_status_is_fatal stub_urljoin (always_returns response)
                                  stub_pow response H))))
           (client_test false 3) "missing" None true world0 "test-key").
  - repeat split; simpl; lia.
  - reflexivity.
Defined.

Lemma retries_exhausted_raise_network_error_witness :
  exists cl' w' last message,
    _make_request stub_urljoin always_times_out stub_pow (client_test false 2)
                  "R" None true world0
    = (Raise (NetworkError message), cl', w')
    /\ Z.of_nat (requests w') = Z.of_nat (requests world0) + 2 + 1
    /\ (2 = 2 -> requests w' = (requests world0 + 3)%nat)
    /\ always_times_out (requests w' - 1)
         (_build_url stub_urljoin (client_test false 2) "R")
         (request_params "test-key" None) = Raises last
    /\ except_clause last = Recorded (NetworkError message).
Proof.
  apply (retries_exhausted_raise_network_error stub_urljoin always_times_out
           stub_pow (client_test false 2) "R" None true world0 "test-key").
  - repeat split; simpl; lia.
  - intros a Ha. apply stub_backoff_passes. simpl in Ha. lia.
  - intros i _. exists "Timeout". left. reflexivity.
Defined.


Lemma unexpected_error_is_retried_witness :
  let transport := always_returns (response_of 200 "<html>" (inl "Expecting value")) in
  exists w' e ds,
    dispatch_loop transport stub_pow (Z.to_nat (3 + 1)) 0 None
                  (client_test false 3) "R" "url" [] true "key" world0
    = (Raise (APIError 500 ("Unexpected error: " ++ str e)), client_test false 3, w')
    /\ Z.of_nat (requests w') = Z.of_nat (requests world0) + 3 + 1
    /\ raised_by "R" (transport (requests w' - 1)%nat "url" []) = Some e
    /\ sleeps w' = (sleeps world0 ++ ds)%list
    /\ backoff_delays stub_pow (Config_test false 3) 0 ds
    /\ List.length ds = Z.to_nat 3.
Proof.
  intros transport.
  apply (proj2 (proj2 (proj2
           (unexpected_error_is_retried transport stub_pow (client_test false 3)
              "R" "url" [] true "key"))) world0).
  - simpl. lia.
  - intros a Ha. apply stub_backoff_passes. simpl in Ha. lia.
  - intros i _. exists (PyException "Expecting value"). split; [reflexivity|exact I].
Defined.



(** * Further properties of the cache *)
Section Cache_more.
Context {V : Type}.
Implicit Types (c : Cache V) (e : CacheEntry V) (k key : string).

(** X1.  [get] of a name that is not cached returns [None] and counts one
    miss; the entries, their order and the hits are as they were. *)
Theorem get_of_missing_key c key now :
  contains (_cache c) key = false ->
  get c key now = (count_miss c, None)
  /\ _cache (fst (get c key now)) = _cache c
  /\ _misses (fst (get c key now)) = _misses c + 1
  /\ _hits (fst (get c key now)) = _hits c.
Proof.
  intros Hk.
  assert (Hl : lookup (_cache c) key = None).
  { destruct (lookup (_cache c) key) eqn:E; [|reflexivity].
    apply lookup_contains in E. congruence. }
  rewrite (get_absent c key now Hl). auto.
Qed.

(** X2.  What [set] stores is what [get] returns until the TTL has elapsed:
    a [get] made at any time up to [now + ttl] (the default TTL when none or
    0 is given) returns the value, counts one hit, and leaves the entry in
    the cache, most recently used, with the expiry it had. *)
Theorem set_then_get c key (v : V) ttl now later c' :
  set c key v ttl now = Ok c' ->
  (later <= now + inject_Z (ttl_or_default ttl (default_ttl c)))%Q ->
  exists c'',
    get c' key later = (c'', Some v)
    /\ _hits c'' = _hits c + 1 /\ _misses c'' = _misses c
    /\ lookup (_cache c'') key
       = Some (CacheEntry_init v (ttl_or_default ttl (default_ttl c)) now)
    /\ last (keys (_cache c'')) "" = key.
Proof.
  intros Hset Hlater.
  set (entry := CacheEntry_init v (ttl_or_default ttl (default_ttl c)) now).
  assert (Hc' : exists d, ~ In key (keys d)
                  /\ _cache c' = (d ++ [(key, entry)])%list
                  /\ _hits c' = _hits c /\ _misses c' = _misses c).
  { unfold set in Hset. fold entry in Hset.
    destruct (contains (_cache c) key) eqn:Hk.
    - injection Hset as <-. eexists. split; [|repeat split; reflexivity].
      rewrite In_remove_key. tauto.
    - apply contains_false in Hk.
      destruct (Z.of_nat (List.length (_cache c)) >=? max_size c).
      + destruct (_cache c) as [|x rest] eqn:Hc; [discriminate|].
        injection Hset as <-. eexists. split; [|repeat split; reflexivity].
        simpl in Hk. tauto.
      + injection Hset as <-. eexists. split; [|repeat split; reflexivity].
        exact Hk. }
  destruct Hc' as (d & Hd & Hc' & Hh & Hm).
  assert (Hl : lookup (_cache c') key = Some entry).
  { rewrite Hc', lookup_app_absent by exact Hd. apply lookup_singleton. }
  assert (He : is_expired entry later = false) by (now apply is_expired_false).
  rewrite (get_hit c' key entry later Hl He).
  eexists. split; [reflexivity|]. simpl. rewrite Hh, Hm.
  split; [reflexivity|]. split; [reflexivity|]. split.
  - rewrite lookup_app_absent; [apply lookup_singleton|].
    rewrite In_remove_key. tauto.
  - rewrite keys_app. simpl. apply last_last.
Qed.

(** X3.  Expiry is lazy: a [get] that finds its entry expired deletes that
    entry only, returns [None] and counts a miss; every other entry, expired
    or not, stays where it was. *)
Theorem get_of_expired_entry c key e now :
  lookup (_cache c) key = Some e ->
  (expiry e < now)%Q ->
  snd (get c key now) = None
  /\ _misses (fst (get c key now)) = _misses c + 1
  /\ _hits (fst (get c key now)) = _hits c
  /\ contains (_cache (fst (get c key now))) key = false
  /\ (forall k, k <> key ->
        lookup (_cache (fst (get c key now))) k = lookup (_cache c) k)
  /\ keys (_cache (fst (get c key now)))
     = List.remove string_dec key (keys (_cache c)).
Proof.
  intros Hl He. apply is_expired_true in He.
  rewrite (get_expired c key e now Hl He). simpl.
  repeat split.
  - apply contains_false. rewrite In_remove_key. tauto.
  - intros k Hk. now apply lookup_remove_key_other.
  - apply keys_remove_key.
Qed.

(** X4.  Writing a name that is already cached replaces its value and makes
    it the most recently used entry; no other entry is dropped and the size
    does not change. *)
Theorem set_of_cached_key c key (v : V) ttl now :
  NoDup (keys (_cache c)) ->
  contains (_cache c) key = true ->
  exists c',
    set c key v ttl now = Ok c'
    /\ keys (_cache c') = (List.remove string_dec key (keys (_cache c)) ++ [key])%list
    /\ List.length (_cache c') = List.length (_cache c)
    /\ lookup (_cache c') key
       = Some (CacheEntry_init v (ttl_or_default ttl (default_ttl c)) now)
    /\ (forall k, k <> key -> lookup (_cache c') k = lookup (_cache c) k).
Proof.
  intros Hnd Hk. unfold set. rewrite Hk. eexists. split; [reflexivity|].
  simpl. apply contains_In in Hk.
  pose proof (length_remove_key _ _ Hnd Hk) as Hlen.
  split; [now rewrite keys_app, keys_remove_key|].
  split; [rewrite length_app; simpl; lia|]. split.
  - rewrite lookup_app_absent; [apply lookup_singleton|].
    rewrite In_remove_key. tauto.
  - intros k Hne.
    destruct (lookup (remove_key (_cache c) key) k) as [x|] eqn:E.
    + rewrite (lookup_app_present _ _ _ _ E), <- E.
      now apply lookup_remove_key_other.
    + rewrite lookup_app_absent.
      * simpl. destruct (String.eqb_spec key k); [congruence|].
        rewrite <- E. now apply lookup_remove_key_other.
      * intros Hin. apply contains_In in Hin.
        apply contains_lookup in Hin as [x Hx]. congruence.
Qed.

(** X5.  A cache without room ([max_size <= 0]) cannot store anything: [set]
    on it, empty, raises [KeyError] from [popitem]. *)
Theorem set_without_room c key (v : V) ttl now :
  max_size c <= 0 -> _cache c = [] ->
  set c key v ttl now = Raise (KeyError "'dictionary is empty'").
Proof.
  intros Hm Hc. unfold set. rewrite Hc. simpl.
  destruct (Z.geb_spec 0 (max_size c)); [reflexivity|lia].
Qed.

(** X6.  [clear] empties the cache and resets both counters, keeping the
    capacity and the default TTL: after it every [get] is a miss, the first
    one counted as miss number 1. *)
Theorem clear_forgets_everything c key now :
  _cache (clear c) = [] /\ _hits (clear c) = 0 /\ _misses (clear c) = 0
  /\ max_size (clear c) = max_size c /\ default_ttl (clear c) = default_ttl c
  /\ snd (get (clear c) key now) = None
  /\ _misses (fst (get (clear c) key now)) = 1.
Proof. repeat split. Qed.
End Cache_more.

Lemma set_stores_counters {V : Type} (c : Cache V) key (v : V) ttl now c' :
  set c key v ttl now = Ok c' -> _hits c' = _hits c /\ _misses c' = _misses c.
Proof.
  unfold set. destruct (contains (_cache c) key); [now intros [= <-]|].
  destruct (_ >=? _); [|now intros [= <-]].
  destruct (_cache c); [discriminate|now intros [= <-]].
Qed.

Section Cache_histories.
Context {V : Type}.
Implicit Types (c : Cache V) (o : op V).

Lemma cache_inv_step m c n o :
  cache_inv m c n ->
  cache_inv m (step c o) (n + lookups [o]).
Proof.
  intros (Hm & Hnd & Hlen & Hh & Hmi & Hn). destruct o as [key now|key v ttl now].
  - pose proof (get_NoDup c key now Hnd) as Hnd'.
    unfold cache_inv, lookups. simpl. revert Hnd'. unfold get, move_to_end.
    destruct (lookup (_cache c) key) as [e|] eqn:Hl.
    + pose proof (lookup_contains _ _ _ Hl) as Hin. apply contains_In in Hin.
      pose proof (length_remove_key _ _ Hnd Hin) as Hrm.
      destruct (is_expired e now); simpl; intros Hnd';
        repeat split; auto; try lia.
      rewrite length_app. simpl. lia.
    + simpl. intros _. repeat split; auto; lia.
  - unfold cache_inv, lookups. simpl.
    destruct (set c key v ttl now) as [c'|e] eqn:Hset.
    + destruct (set_size_bound c key v ttl now c' Hnd) as [Hm' Hlen'];
        [lia|exact Hset|].
      pose proof (set_NoDup c key v ttl now c' Hnd Hset) as Hnd'.
      destruct (set_stores_counters c key v ttl now c' Hset) as [Hh' Hmi'].
      repeat split; try lia; auto.
    + repeat split; auto; lia.
Qed.

Lemma cache_inv_run m ops : forall c n,
  cache_inv m c n -> cache_inv m (run c ops) (n + lookups ops).
Proof.
  induction ops as [|o ops IH]; intros c n Hinv; simpl.
  - unfold lookups. simpl. now rewrite Z.add_0_r.
  - replace (n + lookups (o :: ops)) with (n + lookups [o] + lookups ops).
    + apply IH. now apply cache_inv_step.
    + unfold lookups. simpl. destruct o; simpl; lia.
Qed.

(** X7.  Whatever operations are made on a cache built with a capacity
    [max_size >= 0], it never holds more than [max_size] entries, and never
    two entries under one name. *)
Theorem size_never_exceeds_max_size (max_size0 default_ttl0 : Z) (ops : list (op V)) :
  0 <= max_size0 ->
  let c := run (Cache_init max_size0 default_ttl0) ops in
  max_size c = max_size0
  /\ Z.of_nat (List.length (_cache c)) <= max_size0
  /\ NoDup (keys (_cache c)).
Proof.
  intros Hm c.
  destruct (cache_inv_run max_size0 ops (Cache_init max_size0 default_ttl0) 0)
    as (H1 & H2 & H3 & _).
  - unfold cache_inv. simpl. repeat split; try lia. constructor.
  - auto.
Qed.

(** X8.  Every [get] is counted once, as a hit or as a miss, and [set] is
    not counted: after any operations on a new cache, [hits + misses] is the
    number of [get] made and both counters are non-negative. *)
Theorem counters_count_the_lookups (max_size0 default_ttl0 : Z) (ops : list (op V)) :
  let c := run (Cache_init max_size0 default_ttl0) ops in
  0 <= _hits c /\ 0 <= _misses c
  /\ _hits c + _misses c = lookups ops.
Proof.
  intros c.
  assert (Hgen : forall (ops : list (op V)) (c0 : Cache V) n,
             0 <= _hits c0 -> 0 <= _misses c0 -> _hits c0 + _misses c0 = n ->
             0 <= _hits (run c0 ops) /\ 0 <= _misses (run c0 ops)
             /\ _hits (run c0 ops) + _misses (run c0 ops) = n + lookups ops).
  { clear. induction ops as [|o ops IH]; intros c0 n Hh Hm Hn; simpl.
    - unfold lookups. simpl. lia.
    - replace (n + lookups (o :: ops)) with (n + lookups [o] + lookups ops)
        by (unfold lookups; simpl; destruct o; simpl; lia).
      destruct o as [key now|key v ttl now]; simpl.
      + apply IH; unfold get, lookups;
          destruct (lookup (_cache c0) key) as [e|];
          try destruct (is_expired e now); simpl; lia.
      + destruct (set c0 key v ttl now) as [c'|e] eqn:Hset.
        * destruct (set_stores_counters c0 key v ttl now c' Hset) as [Hh' Hm'].
          apply IH; unfold lookups; simpl; lia.
        * apply IH; unfold lookups; simpl; lia. }
  apply (Hgen ops (Cache_init max_size0 default_ttl0) 0); simpl; lia.
Qed.
End Cache_histories.

Lemma get_of_missing_key_witness :
  get (Cache_init 10 60 : Cache pyval) "key1" 0
  = (count_miss (Cache_init 10 60), None).
Proof.
  exact (proj1 (get_of_missing_key (Cache_init 10 60) "key1" 0 eq_refl)).
Defined.

Lemma set_then_get_witness :
  exists c' c'',
    set (Cache_init 10 60) "key1" (PStr "value1") None 0 = Ok c'
    /\ get c' "key1" 60 = (c'', Some (PStr "value1")).
Proof.
  eexists.
  destruct (set_then_get (Cache_init 10 60) "key1" (PStr "value1") None 0 60 _
                         eq_refl) as (c'' & H & _).
  { unfold Qle; simpl; lia. }
  exists c''. split; [reflexivity|exact H].
Defined.

Lemma get_of_expired_entry_witness :
  let c : Cache pyval :=
    {| max_size := 10; default_ttl := 60;
       _cache := [("key1", CacheEntry_init (PStr "value1") 1 0)];
       _hits := 0; _misses := 0 |} in
  snd (get c "key1" 2) = None.
Proof.
  intros c.
  refine (proj1 (get_of_expired_entry c "key1" _ 2 eq_refl _)).
  unfold Qlt; simpl; lia.
Defined.

Lemma set_of_cached_key_witness :
  let c : Cache pyval :=
    {| max_size := 2; default_ttl := 60;
       _cache := [("key1", CacheEntry_init (PStr "value1") 60 0);
                  ("key2", CacheEntry_init (PStr "value2") 60 0)];
       _hits := 0; _misses := 0 |} in
  exists c',
    set c "key1" (PStr "new") None 1 = Ok c'
    /\ keys (_cache c') = ["key2"; "key1"].
Proof.
  intros c.
  destruct (set_of_cached_key c "key1" (PStr "new") None 1) as (c' & H1 & H2 & _).
  - repeat constructor; simpl; intuition discriminate.
  - reflexivity.
  - exists c'. split; [exact H1|exact H2].
Defined.

Lemma set_without_room_witness :
  set (Cache_init 0 60) "key1" (PStr "value1") None 0
  = Raise (KeyError "'dictionary is empty'").
Proof.
  apply set_without_room; [simpl; lia|reflexivity].
Defined.

Lemma size_never_exceeds_max_size_witness :
  let c := run (Cache_init 1 60)
               [Set_ "key1" (PStr "value1") None 0;
                Set_ "key2" (PStr "value2") None 1; Get "key1" 2] in
  max_size c = 1
  /\ Z.of_nat (List.length (_cache c)) <= 1
  /\ NoDup (keys (_cache c)).
Proof.
  apply (size_never_exceeds_max_size 1 60). lia.
Defined.

(** * Further properties of the rate limiter *)

Lemma no_wait_under_the_limit_aux rl w :
  Z.of_nat (List.length (filter (in_window (clock w) (period rl)) (calls rl)))
  < max_calls rl ->
  wait_if_needed rl w
  = (Ok tt,
     with_calls rl (filter (in_window (clock w) (period rl)) (calls rl)
                    ++ [clock w])%list,
     w).
Proof.
  intros Hlt. unfold wait_if_needed. cbn [calls with_calls max_calls period].
  destruct (Z.geb_spec
              (Z.of_nat (List.length
                 (filter (in_window (clock w) (period rl)) (calls rl))))
              (max_calls rl)); [lia|reflexivity].
Qed.

(** X9.  With fewer than [max_calls] calls recorded in the last [period]
    seconds, [wait_if_needed] returns at once: it does not sleep, the clock
    does not move, and the call is recorded after those still in the
    window. *)
Theorem no_wait_under_the_limit rl w :
  Z.of_nat (List.length (filter (in_window (clock w) (period rl)) (calls rl)))
  < max_calls rl ->
  wait_if_needed rl w
  = (Ok tt,
     with_calls rl (filter (in_window (clock w) (period rl)) (calls rl)
                    ++ [clock w])%list,
     w).
Proof.
  exact (no_wait_under_the_limit_aux rl w).
Qed.

(** X10.  With [max_calls] calls or more recorded in the last [period]
    seconds, [wait_if_needed] sleeps once, for the positive time left until
    the oldest of them is [period] seconds old, then forgets them all and
    records the instant of release only. *)
Theorem wait_at_the_limit rl w oldest rest :
  filter (in_window (clock w) (period rl)) (calls rl) = oldest :: rest ->
  max_calls rl <= Z.of_nat (List.length (oldest :: rest)) ->
  exists w',
    wait_if_needed rl w = (Ok tt, with_calls rl [clock w'], w')
    /\ sleeps w' = (sleeps w ++ [(inject_Z (period rl) - (clock w - oldest))%Q])%list
    /\ (0 < inject_Z (period rl) - (clock w - oldest))%Q
    /\ (clock w' == oldest + inject_Z (period rl))%Q
    /\ requests w' = requests w.
Proof.
  intros Hf Hge. unfold wait_if_needed. cbn [calls with_calls max_calls period].
  rewrite Hf.
  destruct (Z.geb_spec (Z.of_nat (List.length (oldest :: rest))) (max_calls rl));
    [|lia].
  assert (Ho : (clock w - oldest < inject_Z (period rl))%Q).
  { assert (Hin : In oldest (filter (in_window (clock w) (period rl)) (calls rl)))
      by (rewrite Hf; now left).
    apply filter_In in Hin as [_ Hin]. now apply in_window_true in Hin. }
  assert (Hs : (0 < inject_Z (period rl) - (clock w - oldest))%Q) by lra.
  rewrite (proj2 (Qgtb_true _ _) Hs), sleep_nonneg by lra.
  eexists. split; [reflexivity|]. simpl.
  split; [reflexivity|]. split; [exact Hs|]. split; [ring|reflexivity].
Qed.

(** X11.  A limiter that admits no call ([max_calls <= 0]) and has no call
    recorded in the window fails on [self.calls[0]]: [wait_if_needed] raises
    [IndexError] without sleeping. *)
Theorem wait_with_no_capacity rl w :
  max_calls rl <= 0 ->
  filter (in_window (clock w) (period rl)) (calls rl) = [] ->
  wait_if_needed rl w
  = (Raise (IndexError "list index out of range"), with_calls rl [], w).
Proof.
  intros Hm Hf. unfold wait_if_needed. cbn [calls with_calls max_calls period].
  rewrite Hf. simpl.
  destruct (Z.geb_spec 0 (max_calls rl)); [reflexivity|lia].
Qed.

(** X12.  The first [max_calls] calls made on a new limiter are never
    delayed, however close they are: no sleep is made and the clock moves
    only by the time that passes between the calls. *)
Theorem first_calls_are_not_delayed (max_calls0 period0 : Z) (w : World)
    (gaps : list Q) :
  Z.of_nat (List.length gaps) <= max_calls0 ->
  exists rl' w',
    after_calls (RateLimiter_init max_calls0 period0) w gaps = Some (rl', w')
    /\ sleeps w' = sleeps w
    /\ requests w' = requests w
    /\ clock w' = fold_left Qplus gaps (clock w).
Proof.
  intros Hlen.
  assert (Hgen : forall gaps rl w,
             max_calls rl = max_calls0 ->
             Z.of_nat (List.length (calls rl)) + Z.of_nat (List.length gaps)
             <= max_calls0 ->
             exists rl' w',
               after_calls rl w gaps = Some (rl', w')
               /\ sleeps w' = sleeps w /\ requests w' = requests w
               /\ clock w' = fold_left Qplus gaps (clock w)).
  { clear. induction gaps as [|d gaps IH]; intros rl w Em Hle.
    - exists rl, w. auto.
    - simpl after_calls.
      pose proof (filter_length_le (in_window (clock (advance d w)) (period rl))
                    (calls rl)) as Hf.
      rewrite no_wait_under_the_limit_aux by (simpl in *; lia).
      destruct (IH (with_calls rl
                      (filter (in_window (clock (advance d w)) (period rl)) (calls rl)
                       ++ [clock (advance d w)])%list) (advance d w))
        as (rl' & w' & Hrun & Hs & Hr & Hc).
      + exact Em.
      + simpl. rewrite length_app. simpl in *. lia.
      + exists rl', w'. auto. }
  apply Hgen; [reflexivity|simpl; lia].
Qed.


Lemma no_wait_under_the_limit_witness :
  wait_if_needed (RateLimiter_init 2 10) world0
  = (Ok tt, with_calls (RateLimiter_init 2 10) [0%Q], world0).
Proof.
  apply (no_wait_under_the_limit (RateLimiter_init 2 10) world0).
  simpl. lia.
Defined.

Lemma wait_at_the_limit_witness :
  let rl := with_calls (RateLimiter_init 2 10) [0; 9]%Q in
  let w := {| clock := 19 # 2; requests := 0; sleeps := [] |} in
  exists w',
    wait_if_needed rl w = (Ok tt, with_calls rl [clock w'], w')
    /\ sleeps w' = [(inject_Z 10 - ((19 # 2) - 0))%Q].
Proof.
  intros rl w.
  destruct (wait_at_the_limit rl w 0%Q [9%Q]) as (w' & H1 & H2 & _).
  - reflexivity.
  - simpl. lia.
  - exists w'. split; [exact H1|exact H2].
Defined.

Lemma wait_with_no_capacity_witness :
  wait_if_needed (RateLimiter_init 0 10) world0
  = (Raise (IndexError "list index out of range"),
     with_calls (RateLimiter_init 0 10) [], world0).
Proof.
  apply wait_with_no_capacity; [simpl; lia|reflexivity].
Defined.

Lemma first_calls_are_not_delayed_witness :
  exists rl' w',
    after_calls (RateLimiter_init 3 10) world0 [0; 0; 1 # 10]%Q = Some (rl', w')
    /\ sleeps w' = sleeps world0
    /\ requests w' = requests world0
    /\ clock w' = fold_left Qplus [0; 0; 1 # 10]%Q (clock world0).
Proof.
  apply (first_calls_are_not_delayed 3 10 world0). simpl. lia.
Defined.

Lemma set_without_room_aux {V : Type} (c : Cache V) key (v : V) ttl now :
  max_size c <= 0 -> _cache c = [] ->
  set c key v ttl now = Raise (KeyError "'dictionary is empty'").
Proof.
  intros Hm Hc. unfold set. rewrite Hc. simpl.
  destruct (Z.geb_spec 0 (max_size c)); [reflexivity|lia].
Qed.


(** * Further properties of the client *)
Section Client_more.
Variable urljoin : string -> string -> string.
Variable transport : nat -> string -> dict -> http_outcome.
Variable float_pow : pyfloat -> Z -> result pyfloat.

Implicit Types (cl : DataGovInClient) (w : World) (e : exn).

Lemma sleep_float_world x w r w' :
  sleep_float x w = (r, w') ->
  requests w' = requests w
  /\ (List.length (sleeps w') <= S (List.length (sleeps w)))%nat.
Proof.
  destruct x as [d|n|]; simpl; [|intros [= _ <-]; lia..].
  unfold sleep. destruct (Qgtb 0 d); intros [= <- <-]; simpl.
  - lia.
  - rewrite length_app. simpl. lia.
Qed.

Lemma dispatch_loop_bounds resource_id url params use_cache cache_key :
  forall remaining attempt last cl w r cl' w',
    dispatch_loop transport float_pow remaining attempt last cl resource_id url
                  params use_cache cache_key w = (r, cl', w') ->
    (requests w <= requests w' <= requests w + remaining)%nat
    /\ (List.length (sleeps w') <= List.length (sleeps w) + remaining)%nat
    /\ (forall e, r = Raise e -> cl' = cl)
    /\ (use_cache = false -> cl' = cl).
Proof.
  induction remaining as [|n IH]; intros attempt last cl w r cl' w' Hrun.
  - simpl in Hrun. injection Hrun as <- <- <-. repeat split; auto; lia.
  - simpl in Hrun.
    pose proof (try_block_world transport cl resource_id url params use_cache
                  cache_key w) as Hw.
    destruct (try_block transport cl resource_id url params use_cache cache_key w)
      as [[r0 cl1] w1] eqn:Ht. simpl in Hw. subst w1.
    destruct r0 as [data|e0].
    + injection Hrun as <- <- <-. simpl.
      split; [lia|]. split; [lia|]. split; [discriminate|].
      intros ->. unfold try_block, client_get in Ht.
      destruct (transport (requests w) url params) as [e1|resp]; [discriminate|].
      destruct (status_code resp =? 404); [discriminate|].
      destruct (status_code resp =? 429); [discriminate|].
      destruct (status_code resp >=? 400); [discriminate|].
      destruct (raise_for_status resp); [discriminate|].
      destruct (json resp); [discriminate|]. now injection Ht.
    + destruct (try_block_raise_inv transport _ _ _ _ _ _ _ _ _ _ Ht) as [-> _].
      destruct (except_clause e0) as [e1|e1].
      * destruct (attempt <? max_retries (config cl)).
        -- destruct (backoff_delay float_pow (config cl) attempt) as [x|e2].
           2:{ injection Hrun as <- <- <-. simpl. repeat split; auto; lia. }
           destruct (sleep_float x (issued w)) as [[u|e2] w2] eqn:Hs;
             destruct (sleep_float_world _ _ _ _ Hs) as [Hr Hl]; simpl in Hr, Hl.
           ++ destruct (IH _ _ _ _ _ _ _ Hrun) as (H1 & H2 & H3 & H4).
              repeat split; auto; lia.
           ++ injection Hrun as <- <- <-. repeat split; auto; lia.
        -- destruct (IH _ _ _ _ _ _ _ Hrun) as (H1 & H2 & H3 & H4).
           simpl in H1, H2. repeat split; auto; lia.
      * injection Hrun as <- <- <-. simpl. repeat split; auto; lia.
Qed.

(** [k] attempts in a row raise an exception that is recorded, each backoff
    going through: the loop has issued [k] requests and made [k] backoff
    sleeps, and goes on *)
Lemma dispatch_loop_retries resource_id url params use_cache cache_key cl :
  forall k remaining attempt last w,
    (k < remaining)%nat ->
    attempt + Z.of_nat remaining = max_retries (config cl) + 1 ->
    (forall a, attempt <= a < max_retries (config cl) ->
               backoff_passes float_pow (config cl) a) ->
    (forall i w0, (i < k)%nat -> requests w0 = (requests w + i)%nat ->
       exists e e',
         try_block transport cl resource_id url params use_cache cache_key w0
         = (Raise e, cl, issued w0)
         /\ except_clause e = Recorded e') ->
    exists w1 last' ds,
      dispatch_loop transport float_pow remaining attempt last cl resource_id
                    url params use_cache cache_key w
      = dispatch_loop transport float_pow (remaining - k)
                      (attempt + Z.of_nat k) last' cl
                      resource_id url params use_cache cache_key w1
      /\ requests w1 = (requests w + k)%nat
      /\ sleeps w1 = (sleeps w ++ ds)%list
      /\ backoff_delays float_pow (config cl) attempt ds
      /\ List.length ds = k.
Proof.
  induction k as [|k IH]; intros remaining attempt last w Hk Hinv Hdelay Hfail.
  - exists w, last, []. rewrite Nat.sub_0_r, Z.add_0_r, Nat.add_0_r, app_nil_r.
    simpl. auto.
  - destruct remaining as [|n]; [lia|].
    destruct (Hfail 0%nat w) as (e & e' & Ht & He); [lia|lia|].
    destruct (Hdelay attempt) as (d & Hsleep & _); [lia|].
    rewrite (dispatch_loop_backoff transport float_pow n attempt last cl _ _ _
               _ _ w e e' d Ht He ltac:(lia) Hsleep).
    set (w2 := {| clock := _; requests := _; sleeps := _ |}).
    destruct (IH n (attempt + 1) (Some e') w2)
      as (w1 & last' & ds & Hrun & Hreq & Hsl & Hds & Hlen).
    + lia.
    + lia.
    + intros a Ha. apply Hdelay. lia.
    + intros i w0 Hi Hw0. apply (Hfail (S i) w0); [lia|].
      rewrite Hw0. subst w2. simpl. lia.
    + exists w1, last', (d :: ds). rewrite Hrun.
      replace (attempt + 1 + Z.of_nat k) with (attempt + Z.of_nat (S k)) by lia.
      split; [reflexivity|]. subst w2. simpl in *.
      split; [lia|]. split; [now rewrite Hsl, <- app_assoc|].
      split; [split; assumption|lia].
Qed.

(** a successful response is decoded, stored if the cache is in use, and
    returned *)
Lemma try_block_success cl resource_id url params use_cache cache_key w response data :
  transport (requests w) url params = Returns response ->
  status_code response < 400 ->
  raise_for_status response = None ->
  json response = inr data ->
  cache_has_room cl use_cache ->
  exists cl',
    try_block transport cl resource_id url params use_cache cache_key w
    = (Ok data, cl', issued w)
    /\ config cl' = config cl /\ rate_limiter cl' = rate_limiter cl
    /\ (forall c, (if use_cache then cache cl else None) = Some c ->
          exists c', cache cl' = Some c'
            /\ lookup (_cache c') cache_key
               = Some (CacheEntry_init data (default_ttl c) (clock w)))
    /\ ((if use_cache then cache cl else None) = None -> cl' = cl).
Proof.
  intros Ht Hst Hrs Hj Hroom. unfold try_block, client_get. rewrite Ht.
  destruct (Z.eqb_spec (status_code response) 404); [lia|].
  destruct (Z.eqb_spec (status_code response) 429); [lia|].
  destruct (Z.geb_spec (status_code response) 400); [lia|].
  rewrite Hrs, Hj. unfold cache_has_room in Hroom.
  destruct (if use_cache then cache cl else None) as [c|].
  - destruct (set_stores c cache_key data None (clock (issued w)) Hroom)
      as (c' & Hset & Hl & _).
    rewrite Hset. eexists. split; [reflexivity|]. simpl.
    split; [reflexivity|]. split; [reflexivity|]. split; [|discriminate].
    intros c0 [= <-]. exists c'. split; [reflexivity|exact Hl].
  - eexists. split; [reflexivity|]. split; [reflexivity|].
    split; [reflexivity|]. split; [discriminate|reflexivity].
Qed.

(** X17.  Transient failures are recovered from: when the first [k]
    attempts ([k <= max_retries]) raise exceptions that are recorded, every
    backoff goes through and the next attempt gets a successful response
    (which the cache, if in use, has room to store), the loop returns the
    decoded body after exactly [k + 1] requests and the [k] backoff sleeps
    of the attempts [0 .. k - 1]; the recorded exceptions are dropped. *)
Theorem transient_failures_recover
    cl resource_id url params use_cache cache_key w (k : nat) response data :
  (forall a, 0 <= a < max_retries (config cl) ->
             backoff_passes float_pow (config cl) a) ->
  Z.of_nat k <= max_retries (config cl) ->
  (forall i, (i < k)%nat ->
             fails_retryably resource_id (transport (requests w + i) url params)) ->
  transport (requests w + k) url params = Returns response ->
  status_code response < 400 ->
  raise_for_status response = None ->
  json response = inr data ->
  cache_has_room cl use_cache ->
  exists cl' w' ds,
    dispatch_loop transport float_pow (Z.to_nat (max_retries (config cl) + 1))
                  0 None cl resource_id url params use_cache cache_key w
    = (Ok data, cl', w')
    /\ requests w' = (requests w + k + 1)%nat
    /\ sleeps w' = (sleeps w ++ ds)%list
    /\ backoff_delays float_pow (config cl) 0 ds
    /\ List.length ds = k
    /\ config cl' = config cl /\ rate_limiter cl' = rate_limiter cl.
Proof.
  intros Hback Hk Hfail Ht Hst Hrs Hj Hroom.
  destruct (dispatch_loop_retries resource_id url params use_cache cache_key cl
              k (Z.to_nat (max_retries (config cl) + 1)) 0 None w)
    as (w1 & last' & ds & Hrun & Hreq & Hsl & Hds & Hlen).
  - lia.
  - lia.
  - exact Hback.
  - intros i w0 Hi Hw0. destruct (Hfail i Hi) as (e & e' & Hr & He).
    exists e, e'. split; [|exact He].
    apply try_block_raised. now rewrite Hw0.
  - rewrite Hrun.
    destruct (Z.to_nat (max_retries (config cl) + 1) - k)%nat as [|n] eqn:En; [lia|].
    rewrite <- Hreq in Ht.
    destruct (try_block_success cl resource_id url params use_cache cache_key w1
                response data Ht Hst Hrs Hj Hroom)
      as (cl' & Htry & Hcfg & Hrl & _).
    simpl. rewrite Htry. exists cl', (issued w1), ds. simpl.
    repeat split; auto; lia.
Qed.

(** X18.  A cache without room turns every success into a failure: with the
    cache in use, empty and of capacity [max_size <= 0], each successful
    response makes [Cache.set] raise [KeyError], which is recorded as an
    [APIError] 500 and retried; when every backoff goes through, the fetch
    raises that [APIError] after [max_retries + 1] requests, although every
    response was good. *)
Theorem full_retries_when_cache_has_no_room
    cl resource_id url params cache_key w c response data :
  (forall a, 0 <= a < max_retries (config cl) ->
             backoff_passes float_pow (config cl) a) ->
  0 <= max_retries (config cl) ->
  cache cl = Some c -> max_size c <= 0 -> _cache c = [] ->
  (forall n, transport n url params = Returns response) ->
  status_code response < 400 ->
  raise_for_status response = None ->
  json response = inr data ->
  exists w',
    dispatch_loop transport float_pow (Z.to_nat (max_retries (config cl) + 1))
                  0 None cl resource_id url params true cache_key w
    = (Raise (APIError 500 "Unexpected error: 'dictionary is empty'"), cl, w')
    /\ Z.of_nat (requests w') = Z.of_nat (requests w) + max_retries (config cl) + 1.
Proof.
  intros Hback Hretries Hc Hm Hempty Ht Hst Hrs Hj.
  assert (Htry : forall w0,
             try_block transport cl resource_id url params true cache_key w0
             = (Raise (KeyError "'dictionary is empty'"), cl, issued w0)).
  { intros w0. unfold try_block, client_get. rewrite Ht.
    destruct (Z.eqb_spec (status_code response) 404); [lia|].
    destruct (Z.eqb_spec (status_code response) 429); [lia|].
    destruct (Z.geb_spec (status_code response) 400); [lia|].
    rewrite Hrs, Hj, Hc.
    now rewrite (set_without_room_aux c cache_key data None _ Hm Hempty). }
  destruct (dispatch_loop_retries resource_id url params true cache_key cl
              (Z.to_nat (max_retries (config cl)))
              (Z.to_nat (max_retries (config cl) + 1)) 0 None w)
    as (w1 & last' & ds & Hrun & Hreq & _).
  - lia.
  - lia.
  - exact Hback.
  - intros i w0 _ _. do 2 eexists. split; [apply Htry|reflexivity].
  - rewrite Hrun.
    replace (Z.to_nat (max_retries (config cl) + 1)
             - Z.to_nat (max_retries (config cl)))%nat with 1%nat by lia.
    simpl. rewrite Htry. simpl.
    destruct (Z.ltb_spec (Z.of_nat (Z.to_nat (max_retries (config cl))))
                         (max_retries (config cl))); [lia|].
    exists (issued w1). split; [reflexivity|]. simpl. lia.
Qed.

(** X13.  Whatever the transport does, one call of [_make_request] issues at
    most [max_retries + 1] requests (none when [max_retries < 0]) and never
    un-issues one. *)
Theorem requests_are_bounded cl resource_id params use_cache w r cl' w' :
  _make_request urljoin transport float_pow cl resource_id params use_cache w
  = (r, cl', w') ->
  (requests w <= requests w')%nat
  /\ Z.of_nat (requests w')
     <= Z.of_nat (requests w) + Z.max 0 (max_retries (config cl) + 1).
Proof.
  unfold _make_request.
  destruct (api_key_of (config cl)) as [key|]; [|intros [= _ _ <-]; lia].
  pose proof (cache_lookup_frame cl use_cache
    (_make_key [PStr resource_id] (request_params key params)) w) as [Hcfg _].
  destruct (cache_lookup cl use_cache _ w) as [cl1 [cached|]];
    [intros [= _ _ <-]; lia|].
  simpl in Hcfg.
  pose proof (wait_if_needed_requests (rate_limiter cl1) w) as Hreq.
  destruct (wait_if_needed (rate_limiter cl1) w) as [[[u|e] rl] w1];
    simpl in Hreq; [|intros [= _ _ <-]; lia].
  intros Hrun. apply dispatch_loop_bounds in Hrun as (H1 & _).
  simpl in H1. rewrite Hcfg in H1. lia.
Qed.

(** X14.  A call that does not use the cache ([use_cache = False]) leaves
    the cache exactly as it was, whatever the transport does and whether the
    call returns or raises. *)
Theorem no_cache_use_leaves_cache cl resource_id params w r cl' w' :
  _make_request urljoin transport float_pow cl resource_id params false w
  = (r, cl', w') ->
  cache cl' = cache cl /\ config cl' = config cl.
Proof.
  unfold _make_request.
  destruct (api_key_of (config cl)) as [key|]; [|now intros [= _ <- _]].
  simpl.
  destruct (wait_if_needed (rate_limiter cl) w) as [[[u|e] rl] w1];
    [|now intros [= _ <- _]].
  intros Hrun. apply dispatch_loop_bounds in Hrun as (_ & _ & _ & H).
  rewrite (H eq_refl). auto.
Qed.

(** X15.  A call that raises has stored nothing: the cache is as the lookup
    made at the start of the call left it (a miss counted, an expired entry
    deleted), and nothing else of the client has changed but the record of
    the rate limiter. *)
Theorem failure_stores_nothing cl resource_id params use_cache w e cl' w' :
  _make_request urljoin transport float_pow cl resource_id params use_cache w
  = (Raise e, cl', w') ->
  config cl' = config cl
  /\ (cache cl' = cache cl
      \/ exists key,
           api_key_of (config cl) = Some key
           /\ cache cl'
              = cache (fst (cache_lookup cl use_cache
                              (_make_key [PStr resource_id]
                                         (request_params key params)) w))).
Proof.
  unfold _make_request.
  destruct (api_key_of (config cl)) as [key|] eqn:Hkey;
    [|intros [= _ <- _]; auto].
  pose proof (cache_lookup_frame cl use_cache
    (_make_key [PStr resource_id] (request_params key params)) w) as [Hcfg _].
  destruct (cache_lookup cl use_cache _ w) as [cl1 [cached|]] eqn:Hlook;
    [discriminate|].
  simpl in Hcfg.
  assert (Hgoal : exists key0, Some key = Some key0
            /\ cache cl1
               = cache (fst (cache_lookup cl use_cache
                               (_make_key [PStr resource_id]
                                          (request_params key0 params)) w))).
  { exists key. split; [reflexivity|]. now rewrite Hlook. }
  destruct (wait_if_needed (rate_limiter cl1) w) as [[[u|e0] rl] w1].
  - intros Hrun. apply dispatch_loop_bounds in Hrun as (_ & _ & H & _).
    rewrite (H e eq_refl). simpl. split; [exact Hcfg|]. right. exact Hgoal.
  - intros [= _ <- _]. simpl. split; [exact Hcfg|]. right. exact Hgoal.
Qed.

(** X16.  [get_resource] checks its arguments before it touches anything.
    A limit (the default one when none or 0 is given) above [max_limit]
    raises [InvalidParameterError], with or without an API key; otherwise a
    missing or empty API key raises [APIKeyMissingError].  In both cases no
    request is issued, nothing sleeps, and the cache and the limiter are
    untouched. *)
Theorem get_resource_checks_first cl resource_id filters offset limit w :
  (max_limit (config cl) < limit_or_default limit (default_limit (config cl)) ->
   get_resource urljoin transport float_pow cl resource_id filters offset limit w
   = (Raise (InvalidParameterError
               "limit" ("Cannot exceed " ++ Json.of_int (max_limit (config cl)))),
      cl, w))
  /\ (limit_or_default limit (default_limit (config cl)) <= max_limit (config cl) ->
      api_key (config cl) = None \/ api_key (config cl) = Some "" ->
      get_resource urljoin transport float_pow cl resource_id filters offset
                   limit w
      = (Raise APIKeyMissingError, cl, w)).
Proof.
  unfold get_resource. split.
  - intros H. destruct (Z.gtb_spec
      (limit_or_default limit (default_limit (config cl))) (max_limit (config cl)));
      [reflexivity|lia].
  - intros H Hk. destruct (Z.gtb_spec
      (limit_or_default limit (default_limit (config cl))) (max_limit (config cl)));
      [lia|].
    unfold _make_request, api_key_of. destruct Hk as [-> | ->]; reflexivity.
Qed.
End Client_more.

(** * The client from its construction on *)

Lemma validate_ok cfg :
  validate cfg = Ok tt <->
  0 < timeout cfg /\ 0 < rate_limit_calls cfg /\ 0 < rate_limit_period cfg
  /\ 0 <= cache_ttl cfg /\ 0 <= max_retries cfg
  /\ 0 < default_limit cfg <= max_limit cfg.
Proof.
  unfold validate.
  destruct (Z.leb_spec (timeout cfg) 0); [split; [discriminate|lia]|].
  destruct (Z.leb_spec (rate_limit_calls cfg) 0); [split; [discriminate|lia]|].
  destruct (Z.leb_spec (rate_limit_period cfg) 0); [split; [discriminate|lia]|].
  destruct (Z.ltb_spec (cache_ttl cfg) 0); [split; [discriminate|lia]|].
  destruct (Z.ltb_spec (max_retries cfg) 0); [split; [discriminate|lia]|].
  destruct (Z.leb_spec (default_limit cfg) 0); simpl; [split; [discriminate|lia]|].
  destruct (Z.gtb_spec (default_limit cfg) (max_limit cfg));
    [split; [discriminate|lia]|].
  split; [lia|reflexivity].
Qed.

Lemma client_is_built_iff_config_valid_aux cfg :
  ((exists cl, DataGovInClient_init cfg = Ok cl) <->
   0 < timeout cfg /\ 0 < rate_limit_calls cfg /\ 0 < rate_limit_period cfg
   /\ 0 <= cache_ttl cfg /\ 0 <= max_retries cfg
   /\ 0 < default_limit cfg <= max_limit cfg)
  /\ (forall cl, DataGovInClient_init cfg = Ok cl ->
        config cl = cfg
        /\ rate_limiter cl
           = RateLimiter_init (rate_limit_calls cfg) (rate_limit_period cfg)
        /\ cache cl = (if cache_enabled cfg
                       then Some (Cache_init (cache_max_size cfg) (cache_ttl cfg))
                       else None)).
Proof.
  unfold DataGovInClient_init. split.
  - rewrite <- validate_ok. destruct (validate cfg) as [[]|e].
    + split; eauto.
    + split; [intros [cl H]; discriminate|discriminate].
  - intros cl. destruct (validate cfg); [|discriminate].
    intros [= <-]. auto.
Qed.

(** X19.  [DataGovInClient(config)] is built exactly for the configurations
    [Config.validate] accepts: positive timeout, rate limit and period,
    non-negative cache TTL and retry count, and [1 <= default_limit <=
    max_limit]; the API key, the cache size, the retry delay and the backoff
    factor are not checked.  The client built has an empty cache (none when
    caching is disabled) and a limiter with no call recorded. *)
Theorem client_is_built_iff_config_valid cfg :
  ((exists cl, DataGovInClient_init cfg = Ok cl) <->
   0 < timeout cfg /\ 0 < rate_limit_calls cfg /\ 0 < rate_limit_period cfg
   /\ 0 <= cache_ttl cfg /\ 0 <= max_retries cfg
   /\ 0 < default_limit cfg <= max_limit cfg)
  /\ (forall cl, DataGovInClient_init cfg = Ok cl ->
        config cl = cfg
        /\ rate_limiter cl
           = RateLimiter_init (rate_limit_calls cfg) (rate_limit_period cfg)
        /\ cache cl = (if cache_enabled cfg
                       then Some (Cache_init (cache_max_size cfg) (cache_ttl cfg))
                       else None)).
Proof.
  exact (client_is_built_iff_config_valid_aux cfg).
Qed.

Section Client_life.
Variable urljoin : string -> string -> string.
Variable transport : nat -> string -> dict -> http_outcome.
Variable float_pow : pyfloat -> Z -> result pyfloat.

(** X20.  The first request of a new client goes to the network at once:
    with an API key set and, when caching is enabled, room in the cache, a
    successful response to the first attempt is returned after exactly one
    request and no sleep, the call is recorded by the limiter, and the
    payload is stored when the request uses the cache. *)
Theorem first_request_of_new_client
    cfg cl key resource_id params use_cache w response data :
  DataGovInClient_init cfg = Ok cl ->
  api_key_of cfg = Some key ->
  (cache_enabled cfg = true -> 0 < cache_max_size cfg) ->
  transport (requests w) (urljoin (base_url cfg) ("/resource/" ++ resource_id))
            (request_params key params) = Returns response ->
  status_code response < 400 ->
  raise_for_status response = None ->
  json response = inr data ->
  exists cl',
    _make_request urljoin transport float_pow cl resource_id params use_cache w
    = (Ok data, cl', issued w)
    /\ calls (rate_limiter cl') = [clock w]
    /\ (cache_enabled cfg = true -> use_cache = true ->
        exists c', cache cl' = Some c'
          /\ lookup (_cache c')
                    (_make_key [PStr resource_id] (request_params key params))
             = Some (CacheEntry_init data (cache_ttl cfg) (clock w))).
Proof.
  intros Hinit Hkey Hroom Ht Hst Hrs Hj.
  destruct (proj2 (client_is_built_iff_config_valid_aux cfg) cl Hinit)
    as (Hcfg & Hrl & Hcache).
  assert (Hvalid : exists cl0, DataGovInClient_init cfg = Ok cl0) by eauto.
  apply (proj1 (client_is_built_iff_config_valid_aux cfg)) in Hvalid
    as (_ & Hcalls & Hperiod & _ & Hretries & _).
  unfold _make_request. rewrite Hcfg, Hkey.
  set (ckey := _make_key [PStr resource_id] (request_params key params)).
  unfold cache_lookup. rewrite Hcache.
  assert (Hwait : forall rl0, rl0 = rate_limiter cl ->
            wait_if_needed rl0 w
            = (Ok tt, with_calls rl0 [clock w], w)).
  { intros rl0 ->. rewrite Hrl. unfold wait_if_needed. simpl.
    destruct (Z.geb_spec 0 (rate_limit_calls cfg)); [lia|reflexivity]. }
  assert (Hloop : forall cl2,
            config cl2 = cfg -> cache_has_room cl2 use_cache ->
            exists cl',
              dispatch_loop transport float_pow (Z.to_nat (max_retries cfg + 1)) 0
                None cl2
                resource_id (urljoin (base_url cfg) ("/resource/" ++ resource_id))
                (request_params key params) use_cache ckey w
              = (Ok data, cl', issued w)
              /\ rate_limiter cl' = rate_limiter cl2
              /\ (forall c, (if use_cache then cache cl2 else None) = Some c ->
                    exists c', cache cl' = Some c'
                      /\ lookup (_cache c') ckey
                         = Some (CacheEntry_init data (default_ttl c) (clock w)))).
  { intros cl2 Hc2 Hroom2.
    destruct (Z.to_nat (max_retries cfg + 1)) as [|n] eqn:En; [lia|].
    destruct (try_block_success transport cl2 resource_id _ _ use_cache ckey w
                response data Ht Hst Hrs Hj Hroom2)
      as (cl' & Htry & _ & Hrl' & Hstore & _).
    exists cl'. cbn [dispatch_loop]. rewrite Htry. auto. }
  assert (Hfinish : forall cl2,
            config cl2 = cfg -> cache_has_room cl2 use_cache ->
            rate_limiter cl2 = with_calls (rate_limiter cl) [clock w] ->
            (cache_enabled cfg = true -> use_cache = true ->
             exists c, cache cl2 = Some c /\ default_ttl c = cache_ttl cfg) ->
            exists cl',
              dispatch_loop transport float_pow
                (Z.to_nat (max_retries cfg + 1)) 0
                None cl2 resource_id
                (urljoin (base_url cfg) ("/resource/" ++ resource_id))
                (request_params key params) use_cache ckey w
              = (Ok data, cl', issued w)
              /\ calls (rate_limiter cl') = [clock w]
              /\ (cache_enabled cfg = true -> use_cache = true ->
                  exists c', cache cl' = Some c'
                    /\ lookup (_cache c') ckey
                       = Some (CacheEntry_init data (cache_ttl cfg) (clock w)))).
  { intros cl2 Hc2 Hroom2 Hrl2 Hc.
    destruct (Hloop cl2 Hc2 Hroom2) as (cl' & Hrun & Hrl' & Hstore).
    exists cl'. rewrite Hrun.
    split; [reflexivity|]. rewrite Hrl', Hrl2. split; [reflexivity|].
    intros He Hu. destruct (Hc He Hu) as (c & Hcc & Httl).
    destruct (Hstore c) as (c' & Hc' & Hl); [now rewrite Hu|].
    exists c'. now rewrite <- Httl. }
  destruct use_cache, (cache_enabled cfg) eqn:Hen; simpl;
    rewrite (Hwait _ eq_refl); unfold _build_url; simpl; rewrite ?Hcfg;
    apply Hfinish; auto;
    try exact I; try discriminate; try (intros; discriminate).
  - unfold cache_has_room. simpl. auto.
  - intros _ _. eexists. split; reflexivity.
  - unfold cache_has_room. simpl. now rewrite Hcache.
Qed.

(** X21.  [clear_cache] sends the next request to the network: after it no
    request finds a usable entry, whatever was cached, and
    [get_cache_stats] reports an empty cache with both counters at 0 (it
    reports nothing when caching is disabled, where [clear_cache] changes
    nothing). *)
Theorem clear_cache_forces_refetch cl resource_id params use_cache w key :
  api_key_of (config cl) = Some key ->
  0 < max_calls (rate_limiter cl) -> 0 < period (rate_limiter cl) ->
  0 <= max_retries (config cl) ->
  reaches_dispatch (clear_cache cl) resource_id params use_cache w key
  /\ (forall c, cache cl = Some c ->
        get_cache_stats (clear_cache cl)
        = Ok (Some [("size", PInt 0); ("max_size", PInt (max_size c));
                    ("hits", PInt 0); ("misses", PInt 0);
                    ("hit_rate", PStr "0.00%")]))
  /\ (cache cl = None ->
      clear_cache cl = cl /\ get_cache_stats (clear_cache cl) = Ok None).
Proof.
  intros Hkey Hm Hp Hr. unfold clear_cache, get_cache_stats, reaches_dispatch.
  destruct (cache cl) as [c|] eqn:Hc; simpl.
  - split; [|split; [now intros c0 [= <-]|discriminate]].
    repeat split; auto. unfold cache_lookup. simpl. now destruct use_cache.
  - rewrite Hc. split; [|split; [discriminate|auto]].
    repeat split; auto. unfold cache_lookup. rewrite Hc. now destruct use_cache.
Qed.
End Client_life.

(** ** The further properties at concrete inputs *)

Lemma requests_are_bounded_witness :
  let run := _make_request stub_urljoin always_times_out stub_pow
                           (client_test false 2) "R" None false world0 in
  (requests world0 <= requests (snd run))%nat
  /\ Z.of_nat (requests (snd run)) <= Z.of_nat (requests world0) + Z.max 0 (2 + 1).
Proof.
  intros run.
  apply (requests_are_bounded stub_urljoin always_times_out stub_pow
           (client_test false 2) "R" None false world0
           (fst (fst run)) (snd (fst run)) (snd run)).
  vm_compute. reflexivity.
Defined.

Lemma no_cache_use_leaves_cache_witness :
  let run := _make_request stub_urljoin
               (always_returns (response_of 200 "" (inr empty_page))) stub_pow
               (client_test true 3) "R" None false world0 in
  cache (snd (fst run)) = cache (client_test true 3)
  /\ config (snd (fst run)) = config (client_test true 3).
Proof.
  intros run.
  apply (no_cache_use_leaves_cache stub_urljoin
           (always_returns (response_of 200 "" (inr empty_page))) stub_pow
           (client_test true 3) "R" None world0
           (fst (fst run)) (snd (fst run)) (snd run)).
  vm_compute. reflexivity.
Defined.

Lemma failure_stores_nothing_witness :
  let run := _make_request stub_urljoin
               (always_returns (response_of 404 "" (inl "no body"))) stub_pow
               (client_test true 3) "missing" None true world0 in
  config (snd (fst run)) = config (client_test true 3).
Proof.
  intros run.
  refine (proj1 (failure_stores_nothing stub_urljoin
           (always_returns (response_of 404 "" (inl "no body"))) stub_pow
           (client_test true 3) "missing" None true world0
           (ResourceNotFoundError "missing") (snd (fst run)) (snd run) _)).
  vm_compute. reflexivity.
Defined.

Lemma get_resource_checks_first_witness :
  get_resource stub_urljoin always_times_out stub_pow (client_test false 3)
               "R" None 0 (Some 200) world0
  = (Raise (InvalidParameterError "limit" "Cannot exceed 100"),
     client_test false 3, world0).
Proof.
  apply (proj1 (get_resource_checks_first stub_urljoin always_times_out stub_pow
                  (client_test false 3) "R" None 0 (Some 200) world0)).
  simpl. lia.
Defined.

Lemma transient_failures_recover_witness :
  let transport := times_out_once (response_of 200 "" (inr empty_page)) in
  exists cl' w' ds,
    dispatch_loop transport stub_pow (Z.to_nat (2 + 1)) 0 None
                  (client_test false 2) "R" "url" [] false "key" world0
    = (Ok empty_page, cl', w')
    /\ requests w' = (requests world0 + 1 + 1)%nat
    /\ sleeps w' = (sleeps world0 ++ ds)%list
    /\ backoff_delays stub_pow (Config_test false 2) 0 ds
    /\ List.length ds = 1%nat
    /\ config cl' = Config_test false 2
    /\ rate_limiter cl' = rate_limiter (client_test false 2).
Proof.
  intros transport.
  apply (transient_failures_recover transport stub_pow (client_test false 2)
           "R" "url" [] false "key" world0 1
           (response_of 200 "" (inr empty_page)) empty_page).
  - intros a Ha. apply stub_backoff_passes. simpl in Ha. lia.
  - simpl. lia.
  - intros i Hi. assert (i = 0)%nat as -> by lia.
    do 2 eexists. split; reflexivity.
  - reflexivity.
  - simpl. lia.
  - reflexivity.
  - reflexivity.
  - exact I.
Defined.

Lemma full_retries_when_cache_has_no_room_witness :
  let cl := with_cache_of (client_test true 2) (Some (Cache_init 0 3600)) in
  let transport := always_returns (response_of 200 "" (inr empty_page)) in
  exists w',
    dispatch_loop transport stub_pow (Z.to_nat (2 + 1)) 0 None cl
                  "R" "url" [] true "key" world0
    = (Raise (APIError 500 "Unexpected error: 'dictionary is empty'"), cl, w')
    /\ Z.of_nat (requests w') = Z.of_nat (requests world0) + 2 + 1.
Proof.
  intros cl transport.
  apply (full_retries_when_cache_has_no_room transport stub_pow cl "R" "url" []
           "key" world0 (Cache_init 0 3600)
           (response_of 200 "" (inr empty_page)) empty_page).
  - intros a Ha. apply stub_backoff_passes. simpl in Ha. lia.
  - simpl. lia.
  - reflexivity.
  - simpl. lia.
  - reflexivity.
  - intros n. reflexivity.
  - simpl. lia.
  - reflexivity.
  - reflexivity.
Defined.

Lemma client_is_built_iff_config_valid_witness :
  config (client_test true 3) = Config_test true 3
  /\ rate_limiter (client_test true 3) = RateLimiter_init 100 60
  /\ cache (client_test true 3) = Some (Cache_init 1000 3600).
Proof.
  apply (proj2 (client_is_built_iff_config_valid (Config_test true 3))
               (client_test true 3)).
  reflexivity.
Defined.

Lemma first_request_of_new_client_witness :
  let transport := always_returns (response_of 200 "" (inr empty_page)) in
  exists cl',
    _make_request stub_urljoin transport stub_pow (client_test true 3) "R" None
                  true world0
    = (Ok empty_page, cl', issued world0)
    /\ calls (rate_limiter cl') = [clock world0].
Proof.
  intros transport.
  destruct (first_request_of_new_client stub_urljoin transport stub_pow
              (Config_test true 3) (client_test true 3) "test-key" "R" None
              true world0 (response_of 200 "" (inr empty_page)) empty_page)
    as (cl' & H1 & H2 & _).
  - reflexivity.
  - reflexivity.
  - intros _. simpl. lia.
  - reflexivity.
  - simpl. lia.
  - reflexivity.
  - reflexivity.
  - exists cl'. split; [exact H1|exact H2].
Defined.

Lemma clear_cache_forces_refetch_witness :
  reaches_dispatch (clear_cache (client_test true 3)) "R" None true world0
                   "test-key".
Proof.
  apply (proj1 (clear_cache_forces_refetch (client_test true 3) "R" None true
                  world0 "test-key" eq_refl ltac:(simpl; lia) ltac:(simpl; lia)
                  ltac:(simpl; lia))).
Defined.
